(** * stimpl: the interpreter state and the evaluator of [stimpl/runtime.py]

    A shallow embedding of [State], [EmptyState], [evaluate] and
    [run_stimpl], and the properties of the evaluator proved over it.

    Python integers are unbounded: [Z].  Python floats are IEEE binary64:
    the kernel's primitive [float].  Strings are [string]; their order is
    the lexicographic order of the character codes.  An exception raised
    by the interpreter or by the host arithmetic ends the evaluation with
    [Raise]; the text written by [print] is collected in order.  [evaluate]
    recurses over the expression and loops in [While]; the embedding
    bounds both by a fuel argument. *)

From Stdlib Require Import ZArith String List Bool Lia PeanoNat.
From Stdlib Require Import Floats.PrimFloat.
Import ListNotations.

#[local] Set Warnings "-register-all".

Local Open Scope Z_scope.
Local Open Scope list_scope.

(** ** Types ([stimpl/types.py]) *)

(** Modelled from the spec: [stimpl/types.py] is not among the sources.
    The runtime types are a closed set of tags, [Unit], [Integer],
    [FloatingPoint], [String] and [Boolean]; two types are equal iff they
    are the same tag. *)
Inductive RuntimeType : Set :=
| Unit
| Integer
| FloatingPoint
| String
| Boolean.

(** [t1 == t2] on type tags. *)
Definition type_eqb (t1 t2 : RuntimeType) : bool :=
  match t1, t2 with
  | Unit, Unit | Integer, Integer | FloatingPoint, FloatingPoint
  | String, String | Boolean, Boolean => true
  | _, _ => false
  end.

(** [value_type != variable_type] where the right side may be [None]: a
    type tag is never equal to [None]. *)
Definition type_ne_opt (t : RuntimeType) (o : option RuntimeType) : bool :=
  match o with
  | Some t' => negb (type_eqb t t')
  | None => true
  end.

(** ** Runtime values *)

(** The Python values the evaluator computes with: [None] (the value of
    type [Unit]), [int], [float], [str] and [bool]. *)
Inductive value : Set :=
| VNone
| VInt (z : Z)
| VFloat (f : float)
| VStr (s : string)
| VBool (b : bool).

(** [v == None]. *)
Definition is_None (v : value) : bool :=
  match v with
  | VNone => true
  | _ => false
  end.

(** [v == True]: [bool] is a subclass of [int], so [1] and [1.0] are equal
    to [True] as well. *)
Definition eq_True (v : value) : bool :=
  match v with
  | VBool b => b
  | VInt z => Z.eqb z 1
  | VFloat f => PrimFloat.eqb f 1%float
  | VNone | VStr _ => false
  end.

(** Truth value testing, as [and], [or] and [not] apply it. *)
Definition truthy (v : value) : bool :=
  match v with
  | VNone => false
  | VInt z => negb (Z.eqb z 0)
  | VFloat f => negb (PrimFloat.eqb f 0%float)
  | VStr s => negb (String.eqb s EmptyString)
  | VBool b => b
  end.

(** [l and r]: the left operand when it is false, the right one otherwise. *)
Definition py_and (l r : value) : value := if truthy l then r else l.

(** [l or r]: the left operand when it is true, the right one otherwise. *)
Definition py_or (l r : value) : value := if truthy l then l else r.

(** [not v]. *)
Definition py_not (v : value) : value := VBool (negb (truthy v)).

(** ** Exceptions ([stimpl/errors.py]) and the evaluation monad *)

(** Modelled from the spec: [stimpl/errors.py] is not among the sources.
    [InterpSyntaxError] is the spec's SyntaxFault and [InterpTypeError] its
    TypeFault.  [ZeroDivisionError] and [TypeError] are the host's own
    exceptions, which the interpreter does not catch. *)
Inductive exn : Set :=
| InterpSyntaxError
| InterpTypeError
| ZeroDivisionError
| TypeError.

(** What [print] wrote: a literal text, or the text of a value
    ([f"{value}"], whose formatting is the host's). *)
Inductive output : Set :=
| Text (s : string)
| Formatted (v : value).

Inductive outcome (A : Type) : Type :=
| Return (a : A)
| Raise (e : exn)
| OutOfFuel.

Arguments Return {A} a.
Arguments Raise {A} e.
Arguments OutOfFuel {A}.

(** A computation: the lines printed so far and how it ended. *)
Definition M (A : Type) : Type := (list output * outcome A)%type.

Definition ret {A : Type} (a : A) : M A := ([], Return a).

Definition raise {A : Type} (e : exn) : M A := ([], Raise e).

Definition out_of_fuel {A : Type} : M A := ([], OutOfFuel).

Definition print (o : output) : M unit := ([o], Return tt).

Definition bind {A B : Type} (m : M A) (f : A -> M B) : M B :=
  match m with
  | (o, Return a) => let (o', r) := f a in (o ++ o', r)
  | (o, Raise e) => (o, Raise e)
  | (o, OutOfFuel) => (o, OutOfFuel)
  end.

Declare Scope eval_scope.
Delimit Scope eval_scope with eval.

Notation "x <- c ;; k" := (bind c (fun x => k))
  (at level 61, c at next level, right associativity) : eval_scope.
Notation "' p <- c ;; k" := (bind c (fun x => let 'p := x in k))
  (at level 61, p pattern, c at next level, right associativity) : eval_scope.
Notation "c ;;; k" := (bind c (fun _ => k))
  (at level 61, right associativity) : eval_scope.

Local Open Scope eval_scope.

(** ** The host operators on values

    Each operator is modelled on operands of one shape, which is what the
    evaluator's type checks send to it when every binding's value has the
    shape of its type ([evaluate_well_typed] below).  On operands of mixed
    shapes, where Python would convert or raise, the model raises
    [TypeError]. *)

(** [l + r]: integer addition, float addition, string concatenation. *)
Definition py_add (l r : value) : M value :=
  match l, r with
  | VInt a, VInt b => ret (VInt (a + b))
  | VFloat a, VFloat b => ret (VFloat (PrimFloat.add a b))
  | VStr a, VStr b => ret (VStr (String.append a b))
  | _, _ => raise TypeError
  end.

(** [l - r]. *)
Definition py_sub (l r : value) : M value :=
  match l, r with
  | VInt a, VInt b => ret (VInt (a - b))
  | VFloat a, VFloat b => ret (VFloat (PrimFloat.sub a b))
  | _, _ => raise TypeError
  end.

(** [l * r]. *)
Definition py_mul (l r : value) : M value :=
  match l, r with
  | VInt a, VInt b => ret (VInt (a * b))
  | VFloat a, VFloat b => ret (VFloat (PrimFloat.mul a b))
  | _, _ => raise TypeError
  end.

(** [l / r], true division: a zero divisor (of either sign) raises
    [ZeroDivisionError]. *)
Definition py_truediv (l r : value) : M value :=
  match l, r with
  | VFloat a, VFloat b =>
      if PrimFloat.eqb b 0%float then raise ZeroDivisionError
      else ret (VFloat (PrimFloat.div a b))
  | _, _ => raise TypeError
  end.

(** [l // r], floor division: the quotient rounded towards minus infinity,
    [ZeroDivisionError] on a zero divisor. *)
Definition py_floordiv (l r : value) : M value :=
  match l, r with
  | VInt a, VInt b =>
      if Z.eqb b 0 then raise ZeroDivisionError
      else ret (VInt (Z.div a b))
  | _, _ => raise TypeError
  end.

(** [l < r].  Booleans are ordered as the integers 0 and 1. *)
Definition py_lt (l r : value) : M value :=
  match l, r with
  | VInt a, VInt b => ret (VBool (Z.ltb a b))
  | VFloat a, VFloat b => ret (VBool (PrimFloat.ltb a b))
  | VStr a, VStr b => ret (VBool (String.ltb a b))
  | VBool a, VBool b => ret (VBool (Z.ltb (Z.b2z a) (Z.b2z b)))
  | _, _ => raise TypeError
  end.

(** [l <= r]. *)
Definition py_le (l r : value) : M value :=
  match l, r with
  | VInt a, VInt b => ret (VBool (Z.leb a b))
  | VFloat a, VFloat b => ret (VBool (PrimFloat.leb a b))
  | VStr a, VStr b => ret (VBool (String.leb a b))
  | VBool a, VBool b => ret (VBool (Z.leb (Z.b2z a) (Z.b2z b)))
  | _, _ => raise TypeError
  end.

(** [l > r]. *)
Definition py_gt (l r : value) : M value := py_lt r l.

(** [l >= r]. *)
Definition py_ge (l r : value) : M value := py_le r l.

(** [l == r].  Never raises on one shape; a value is unequal to a value of
    an unrelated shape. *)
Definition py_eq (l r : value) : M value :=
  match l, r with
  | VNone, VNone => ret (VBool true)
  | VInt a, VInt b => ret (VBool (Z.eqb a b))
  | VFloat a, VFloat b => ret (VBool (PrimFloat.eqb a b))
  | VStr a, VStr b => ret (VBool (String.eqb a b))
  | VBool a, VBool b => ret (VBool (Bool.eqb a b))
  | VInt _, (VFloat _ | VBool _)
  | VFloat _, (VInt _ | VBool _)
  | VBool _, (VInt _ | VFloat _) => raise TypeError
  | _, _ => ret (VBool false)
  end.

(** [l != r]. *)
Definition py_ne (l r : value) : M value :=
  match l, r with
  | VNone, VNone => ret (VBool false)
  | VInt a, VInt b => ret (VBool (negb (Z.eqb a b)))
  | VFloat a, VFloat b => ret (VBool (negb (PrimFloat.eqb a b)))
  | VStr a, VStr b => ret (VBool (negb (String.eqb a b)))
  | VBool a, VBool b => ret (VBool (negb (Bool.eqb a b)))
  | VInt _, (VFloat _ | VBool _)
  | VFloat _, (VInt _ | VBool _)
  | VBool _, (VInt _ | VFloat _) => raise TypeError
  | _, _ => ret (VBool true)
  end.

(** ** Expressions ([stimpl/expression.py]) *)

(** Modelled from the spec: [stimpl/expression.py] is not among the
    sources.  The constructors and their fields are the class patterns of
    [evaluate]; [Ren] is the unit literal, [Variable_] is the class
    [Variable], and [left_], [right_], [true_], [false_] are the fields
    [left], [right], [true], [false] (names taken here), and [Assign] holds the name of its [Variable] node
    ([variable.variable_name]). *)
Inductive Expr : Set :=
| Ren
| IntLiteral (literal : Z)
| FloatingPointLiteral (literal : float)
| StringLiteral (literal : string)
| BooleanLiteral (literal : bool)
| Print (to_print : Expr)
| Sequence (exprs : list Expr)
| Program (exprs : list Expr)
| Variable_ (variable_name : string)
| Assign (variable : string) (value : Expr)
| Add (left_ right_ : Expr)
| Subtract (left_ right_ : Expr)
| Multiply (left_ right_ : Expr)
| Divide (left_ right_ : Expr)
| And (left_ right_ : Expr)
| Or (left_ right_ : Expr)
| Not (expr : Expr)
| If (condition true_ false_ : Expr)
| Lt (left_ right_ : Expr)
| Lte (left_ right_ : Expr)
| Gt (left_ right_ : Expr)
| Gte (left_ right_ : Expr)
| Eq (left_ right_ : Expr)
| Ne (left_ right_ : Expr)
| While (condition body : Expr).

(** ** Interpreter state *)

(** [EmptyState()] and [State(variable_name, variable_value, variable_type,
    next_state)]: the chain of bindings, newest first.  No method assigns
    to a field of an existing object, so a chain is a value. *)
Inductive State : Set :=
| EmptyState
| StateNode (variable_name : string) (value : value * RuntimeType)
            (next_state : State).

(** [State.copy] and [EmptyState.copy]. *)
Definition copy (self : State) : State :=
  match self with
  | EmptyState => EmptyState
  | StateNode variable_name (variable_value, variable_type) next_state =>
      StateNode variable_name (variable_value, variable_type) next_state
  end.

(** [State.set_value]. *)
Definition set_value (self : State) (variable_name : string)
    (variable_value : value) (variable_type : RuntimeType) : State :=
  StateNode variable_name (variable_value, variable_type) self.

(** [State.get_value] and [EmptyState.get_value]: the loop over
    [current_state], by recursion on the chain. *)
Fixpoint get_value (self : State) (variable_name : string)
    : option (value * RuntimeType) :=
  match self with
  | EmptyState => None
  | StateNode name value next_state =>
      if String.eqb name variable_name then Some value
      else get_value next_state variable_name
  end.

(** ** Main evaluation logic *)

Definition result : Set := (value * RuntimeType * State)%type.

(** The [for expr in exprs] loop of the [Sequence] case, [ev] being the
    recursive call. *)
Fixpoint for_exprs (ev : Expr -> State -> M result) (exprs : list Expr)
    (last : result) : M result :=
  match exprs with
  | [] => ret last
  | expr :: exprs' =>
      let '(_, _, last_state) := last in
      last' <- ev expr last_state ;;
      for_exprs ev exprs' last'
  end.

(** The [while True] loop of the [While] case; [iterations] bounds the
    number of times the condition is evaluated. *)
Fixpoint while_True (ev : Expr -> State -> M result) (condition body : Expr)
    (iterations : nat) (new_state : State) : M result :=
  match iterations with
  | O => out_of_fuel
  | S iterations' =>
      '(condition_value, condition_type, new_state) <- ev condition new_state ;;
      if negb (type_eqb condition_type Boolean) then raise InterpTypeError
      else if negb (eq_True condition_value)
      then ret (condition_value, condition_type, new_state)
      else
        '(body_value, body_type, new_state) <- ev body new_state ;;
        while_True ev condition body iterations' new_state
  end.

Fixpoint evaluate (fuel : nat) (expression : Expr) (state : State)
    {struct fuel} : M result :=
  match fuel with
  | O => out_of_fuel
  | S fuel =>
    match expression with
    | Ren => ret (VNone, Unit, state)

    | IntLiteral l => ret (VInt l, Integer, state)

    | FloatingPointLiteral l => ret (VFloat l, FloatingPoint, state)

    | StringLiteral l => ret (VStr l, String, state)

    | BooleanLiteral l => ret (VBool l, Boolean, state)

    | Print to_print =>
        '(printable_value, printable_type, new_state) <-
          evaluate fuel to_print state ;;
        match printable_type with
        | Unit => print (Text "Unit")
        | _ => print (Formatted printable_value)
        end ;;;
        ret (printable_value, printable_type, new_state)

    | Sequence exprs | Program exprs =>
        for_exprs (evaluate fuel) exprs (VNone, Unit, state)

    | Variable_ variable_name =>
        match get_value state variable_name with
        | None => raise InterpSyntaxError
        | Some (variable_value, variable_type) =>
            ret (variable_value, variable_type, state)
        end

    | Assign variable value =>
        '(value_result, value_type, new_state) <- evaluate fuel value state ;;
        let variable_from_state := get_value new_state variable in
        let variable_type :=
          match variable_from_state with
          | Some (_, variable_type) => Some variable_type
          | None => None
          end in
        if type_ne_opt value_type variable_type
           && match variable_type with Some _ => true | None => false end
        then raise InterpTypeError
        else
          let new_state :=
            set_value new_state variable value_result value_type in
          ret (value_result, value_type, new_state)

    | Add left_ right_ =>
        '(left_result, left_type, new_state) <- evaluate fuel left_ state ;;
        '(right_result, right_type, new_state) <-
          evaluate fuel right_ new_state ;;
        if negb (type_eqb left_type right_type) then raise InterpTypeError
        else
          match left_type with
          | Integer | String | FloatingPoint =>
              result <- py_add left_result right_result ;;
              ret (result, left_type, new_state)
          | _ => raise InterpTypeError
          end

    | Subtract left_ right_ =>
        '(left_result, left_type, new_state) <- evaluate fuel left_ state ;;
        '(right_result, right_type, new_state) <-
          evaluate fuel right_ new_state ;;
        if negb (type_eqb left_type right_type) then raise InterpTypeError
        else
          match left_type with
          | Integer | FloatingPoint =>
              result <- py_sub left_result right_result ;;
              ret (result, left_type, new_state)
          | _ => raise InterpTypeError
          end

    | Multiply left_ right_ =>
        '(left_result, left_type, new_state) <- evaluate fuel left_ state ;;
        '(right_result, right_type, new_state) <-
          evaluate fuel right_ new_state ;;
        if negb (type_eqb left_type right_type) then raise InterpTypeError
        else
          match left_type with
          | Integer | FloatingPoint =>
              result <- py_mul left_result right_result ;;
              ret (result, left_type, new_state)
          | _ => raise InterpTypeError
          end

    | Divide left_ right_ =>
        '(left_result, left_type, new_state) <- evaluate fuel left_ state ;;
        '(right_result, right_type, new_state) <-
          evaluate fuel right_ new_state ;;
        if negb (type_eqb left_type right_type) then raise InterpTypeError
        else
          match left_type with
          | FloatingPoint =>
              result <- py_truediv left_result right_result ;;
              ret (result, left_type, new_state)
          | Integer =>
              result <- py_floordiv left_result right_result ;;
              ret (result, left_type, new_state)
          | _ => raise InterpTypeError
          end

    | And left_ right_ =>
        '(left_value, left_type, new_state) <- evaluate fuel left_ state ;;
        '(right_value, right_type, new_state) <-
          evaluate fuel right_ new_state ;;
        if negb (type_eqb left_type right_type) then raise InterpTypeError
        else
          match left_type with
          | Boolean =>
              ret (py_and left_value right_value, left_type, new_state)
          | _ => raise InterpTypeError
          end

    | Or left_ right_ =>
        '(left_value, left_type, new_state) <- evaluate fuel left_ state ;;
        '(right_value, right_type, new_state) <-
          evaluate fuel right_ new_state ;;
        if negb (type_eqb left_type right_type) then raise InterpTypeError
        else
          match left_type with
          | Boolean =>
              ret (py_or left_value right_value, left_type, new_state)
          | _ => raise InterpTypeError
          end

    | Not expr =>
        '(expr_value, expr_type, new_state) <- evaluate fuel expr state ;;
        if negb (type_eqb expr_type Boolean) then raise InterpTypeError
        else ret (py_not expr_value, Boolean, new_state)

    | If condition true_ false_ =>
        '(condition_value, condition_type, new_state) <-
          evaluate fuel condition state ;;
        if negb (type_eqb condition_type Boolean) then raise InterpTypeError
        else if eq_True condition_value
        then evaluate fuel true_ new_state
        else evaluate fuel false_ new_state

    | Lt left_ right_ =>
        '(left_value, left_type, new_state) <- evaluate fuel left_ state ;;
        '(right_value, right_type, new_state) <-
          evaluate fuel right_ new_state ;;
        if negb (type_eqb left_type right_type) then raise InterpTypeError
        else
          match left_type with
          | Integer | Boolean | String | FloatingPoint =>
              result <- py_lt left_value right_value ;;
              ret (result, Boolean, new_state)
          | Unit => ret (VBool false, Boolean, new_state)
          end

    | Lte left_ right_ =>
        '(left_value, left_type, new_state) <- evaluate fuel left_ state ;;
        '(right_value, right_type, new_state) <-
          evaluate fuel right_ new_state ;;
        if negb (type_eqb left_type right_type) then raise InterpTypeError
        else if is_None left_value && is_None right_value
        then ret (VBool true, Boolean, new_state)
        else
          match left_type with
          | Integer | String | FloatingPoint =>
              result <- py_le left_value right_value ;;
              ret (result, Boolean, new_state)
          | Boolean =>
              result <- py_eq left_value right_value ;;
              ret (result, Boolean, new_state)
          | Unit => ret (VBool false, Boolean, new_state)
          end

    | Gt left_ right_ =>
        '(left_value, left_type, new_state) <- evaluate fuel left_ state ;;
        '(right_value, right_type, new_state) <-
          evaluate fuel right_ new_state ;;
        if negb (type_eqb left_type right_type) then raise InterpTypeError
        else
          match left_type with
          | Integer | Boolean | String | FloatingPoint =>
              result <- py_gt left_value right_value ;;
              ret (result, Boolean, new_state)
          | Unit => ret (VBool false, Boolean, new_state)
          end

    | Gte left_ right_ =>
        '(left_value, left_type, new_state) <- evaluate fuel left_ state ;;
        '(right_value, right_type, new_state) <-
          evaluate fuel right_ new_state ;;
        if negb (type_eqb left_type right_type) then raise InterpTypeError
        else if is_None left_value && is_None right_value
        then ret (VBool true, Boolean, new_state)
        else
          match left_type with
          | Integer | Boolean | String | FloatingPoint =>
              result <- py_ge left_value right_value ;;
              ret (result, Boolean, new_state)
          | Unit => ret (VBool false, Boolean, new_state)
          end

    | Eq left_ right_ =>
        '(left_value, left_type, new_state) <- evaluate fuel left_ state ;;
        '(right_value, right_type, new_state) <-
          evaluate fuel right_ new_state ;;
        if negb (type_eqb left_type right_type) then raise InterpTypeError
        else if is_None left_value && is_None right_value
        then ret (VBool true, Boolean, new_state)
        else
          match left_type with
          | Integer | Boolean | String | FloatingPoint =>
              result <- py_eq left_value right_value ;;
              ret (result, Boolean, new_state)
          | Unit => ret (VBool false, Boolean, new_state)
          end

    | Ne left_ right_ =>
        '(left_value, left_type, new_state) <- evaluate fuel left_ state ;;
        '(right_value, right_type, new_state) <-
          evaluate fuel right_ new_state ;;
        if negb (type_eqb left_type right_type) then raise InterpTypeError
        else
          match left_type with
          | Integer | Boolean | String | FloatingPoint =>
              result <- py_ne left_value right_value ;;
              ret (result, Boolean, new_state)
          | Unit => ret (VBool false, Boolean, new_state)
          end

    | While condition body =>
        while_True (evaluate fuel) condition body fuel state
    end
  end.

(** [run_stimpl], without its debug printing. *)
Definition run_stimpl (fuel : nat) (program : Expr) : M result :=
  evaluate fuel program EmptyState.

(** ** The objects behind a chain *)

(** The chain as the interpreter holds it: objects in a store, each
    [State] object referring to its [next_state] by location.  The store
    is the list of the objects allocated so far, the object of location
    [l] at index [l]. *)
Module Store.

Definition loc : Set := nat.

(** An [EmptyState] object (no field), or a [State] object with its three
    fields. *)
Inductive object : Set :=
| EmptyStateObject
| StateObject (variable_name : string) (value : value * RuntimeType)
              (next_state : loc).

Definition store : Set := list object.

(** Allocation: the new object gets the next location, and no object of
    the store is written. *)
Definition alloc (h : store) (o : object) : store * loc :=
  (h ++ [o], length h).

(** [EmptyState()]. *)
Definition new_EmptyState (h : store) : store * loc :=
  alloc h EmptyStateObject.

(** [self.set_value(variable_name, variable_value, variable_type)], which
    is [State(variable_name, variable_value, variable_type, self)]. *)
Definition set_value (h : store) (self : loc) (variable_name : string)
    (variable_value : value) (variable_type : RuntimeType) : store * loc :=
  alloc h (StateObject variable_name (variable_value, variable_type) self).

(** [self.copy()]: a new object with the fields of [self]. *)
Definition copy (h : store) (self : loc) : option (store * loc) :=
  match nth_error h self with
  | Some o => Some (alloc h o)
  | None => None
  end.

(** The loop of [get_value] over [current_state], visiting at most [fuel]
    objects: [Some r] when the loop ends with the answer [r], [None] when
    the fuel is spent or a location holds no object. *)
Fixpoint get_value_loop (fuel : nat) (h : store) (current_state : loc)
    (variable_name : string) : option (option (value * RuntimeType)) :=
  match fuel with
  | O => None
  | S fuel' =>
      match nth_error h current_state with
      | None => None
      | Some EmptyStateObject => Some None
      | Some (StateObject name value next_state) =>
          if String.eqb name variable_name then Some (Some value)
          else get_value_loop fuel' h next_state variable_name
      end
  end.

(** [self.get_value(variable_name)]: a chain is no longer than the store. *)
Definition get_value (h : store) (self : loc) (variable_name : string)
    : option (option (value * RuntimeType)) :=
  get_value_loop (length h) h self variable_name.

(** The chain that starts at a location, read off the store. *)
Fixpoint chain_loop (fuel : nat) (h : store) (l : loc) : option State :=
  match fuel with
  | O => None
  | S fuel' =>
      match nth_error h l with
      | None => None
      | Some EmptyStateObject => Some EmptyState
      | Some (StateObject name value next_state) =>
          match chain_loop fuel' h next_state with
          | Some next => Some (StateNode name value next)
          | None => None
          end
      end
  end.

Definition chain (h : store) (l : loc) : option State :=
  chain_loop (length h) h l.

(** A [State] object is built from an object that exists already: its
    [next_state] is an older location. *)
Definition well_formed (h : store) : Prop :=
  forall l name value next_state,
    nth_error h l = Some (StateObject name value next_state) ->
    (next_state < l)%nat.

End Store.

(** ** Notions the properties are stated with *)

(** [m] ended by itself: it returned or raised. *)
Definition finished {A : Type} (m : M A) : Prop := snd m <> OutOfFuel.

(** [m2] is [m1] run with more fuel: once [m1] has finished, [m2] is the
    same computation. *)
Definition fuel_le {A : Type} (m1 m2 : M A) : Prop := finished m1 -> m2 = m1.

(** [evaluate(e, s)] prints [o] and ends with [r]: it returns a result or
    raises an exception. *)
Definition evaluates (e : Expr) (s : State) (o : list output)
    (r : outcome result) : Prop :=
  r <> OutOfFuel /\ exists n, evaluate n e s = (o, r).

(** The values of each runtime type. *)
Definition has_type (v : value) (t : RuntimeType) : bool :=
  match v, t with
  | VNone, Unit | VInt _, Integer | VFloat _, FloatingPoint
  | VStr _, String | VBool _, Boolean => true
  | _, _ => false
  end.

(** Every binding of the chain holds a value of its type. *)
Fixpoint well_typed (s : State) : bool :=
  match s with
  | EmptyState => true
  | StateNode _ (v, t) next_state => has_type v t && well_typed next_state
  end.

Definition good (r : result) : Prop :=
  let '(v, t, s) := r in has_type v t = true /\ well_typed s = true.

(** [m] does not raise the host's [TypeError], and what it returns
    satisfies [P]. *)
Definition sat {A : Type} (P : A -> Prop) (m : M A) : Prop :=
  match snd m with
  | Return a => P a
  | Raise TypeError => False
  | _ => True
  end.

(** The bindings of a chain, newest first. *)
Fixpoint bindings (s : State) : list (string * (value * RuntimeType)) :=
  match s with
  | EmptyState => []
  | StateNode name value next_state => (name, value) :: bindings next_state
  end.

(** The binary constructs: arithmetic, boolean, comparison. *)
Definition binary_constructs : list (Expr -> Expr -> Expr) :=
  [Add; Subtract; Multiply; Divide; And; Or; Lt; Lte; Gt; Gte; Eq; Ne].

(** The two constructs that hold a list of expressions. *)
Definition sequence_constructs : list (list Expr -> Expr) :=
  [Sequence; Program].

(** What [m] returns, when it returns, satisfies [P]. *)
Definition on_return {A : Type} (P : A -> Prop) (m : M A) : Prop :=
  match snd m with
  | Return a => P a
  | _ => True
  end.

(** The state of a result. *)
Definition state_of (r : result) : State := let '(_, _, s) := r in s.

(** The test of [Assign] passes for [name] and [value_type] in [s]: the
    name is unbound, or bound with that type. *)
Definition assignable (s : State) (name : string) (value_type : RuntimeType)
    : Prop :=
  get_value s name = None \/ exists v, get_value s name = Some (v, value_type).

(** Every binding of [s] is a binding of [s'], below the new ones. *)
Definition extends (s s' : State) : Prop :=
  exists newer, bindings s' = newer ++ bindings s.

(** A variable bound in [s] is bound in [s'] with the same type. *)
Definition keeps_types (s s' : State) : Prop :=
  forall x v t,
    get_value s x = Some (v, t) -> exists v', get_value s' x = Some (v', t).

(** All the bindings of one name in the chain have one type. *)
Definition one_type_per_name (s : State) : Prop :=
  forall x v1 t1 v2 t2,
    In (x, (v1, t1)) (bindings s) -> In (x, (v2, t2)) (bindings s) ->
    t1 = t2.

(** [e] holds an [Assign] node. *)
Fixpoint assigns (e : Expr) : bool :=
  match e with
  | Ren | IntLiteral _ | FloatingPointLiteral _ | StringLiteral _
  | BooleanLiteral _ | Variable_ _ => false
  | Assign _ _ => true
  | Print e1 | Not e1 => assigns e1
  | Sequence es | Program es => existsb assigns es
  | Add l r | Subtract l r | Multiply l r | Divide l r
  | And l r | Or l r
  | Lt l r | Lte l r | Gt l r | Gte l r | Eq l r | Ne l r
  | While l r => assigns l || assigns r
  | If c t f => assigns c || assigns t || assigns f
  end.

(** The line [print] writes for a value of a type. *)
Definition printed (v : value) (t : RuntimeType) : output :=
  match t with
  | Unit => Text "Unit"
  | _ => Formatted v
  end.

(** The type of a result. *)
Definition type_of (r : result) : RuntimeType := let '(_, t, _) := r in t.

(** The constructs that answer with a truth value. *)
Definition truth_constructs : list (Expr -> Expr -> Expr) :=
  [And; Or; Lt; Lte; Gt; Gte; Eq; Ne].

(** One turn of the loop written with [If]: the body, then the loop again,
    when the condition is true; the value false otherwise. *)
Definition unrolled (condition body : Expr) : Expr :=
  If condition (Sequence [body; While condition body]) (BooleanLiteral false).

(** [e] holds a [Print] node. *)
Fixpoint prints (e : Expr) : bool :=
  match e with
  | Ren | IntLiteral _ | FloatingPointLiteral _ | StringLiteral _
  | BooleanLiteral _ | Variable_ _ => false
  | Print _ => true
  | Assign _ e1 | Not e1 => prints e1
  | Sequence es | Program es => existsb prints es
  | Add l r | Subtract l r | Multiply l r | Divide l r
  | And l r | Or l r
  | Lt l r | Lte l r | Gt l r | Gte l r | Eq l r | Ne l r
  | While l r => prints l || prints r
  | If c t f => prints c || prints t || prints f
  end.

(** [m] wrote nothing. *)
Definition silent {A : Type} (m : M A) : Prop := fst m = [].

(** Two chains that answer every lookup alike. *)
Definition same_lookups (s s' : State) : Prop :=
  forall x, get_value s x = get_value s' x.

(** Two results with one value, one type, and states that answer every
    lookup alike. *)
Definition same_result (r r' : result) : Prop :=
  let '(v, t, s) := r in
  let '(v', t', s') := r' in
  v = v' /\ t = t' /\ same_lookups s s'.

(** Two computations that wrote the same lines and ended alike, their
    results related by [RA]. *)
Definition alike {A : Type} (RA : A -> A -> Prop) (m m' : M A) : Prop :=
  fst m = fst m' /\
  match snd m, snd m' with
  | Return a, Return a' => RA a a'
  | Raise e, Raise e' => e = e'
  | OutOfFuel, OutOfFuel => True
  | _, _ => False
  end.

(** [e] holds a [Variable] node. *)
Fixpoint reads (e : Expr) : bool :=
  match e with
  | Ren | IntLiteral _ | FloatingPointLiteral _ | StringLiteral _
  | BooleanLiteral _ => false
  | Variable_ _ => true
  | Print e1 | Assign _ e1 | Not e1 => reads e1
  | Sequence es | Program es => existsb reads es
  | Add l r | Subtract l r | Multiply l r | Divide l r
  | And l r | Or l r
  | Lt l r | Lte l r | Gt l r | Gte l r | Eq l r | Ne l r
  | While l r => reads l || reads r
  | If c t f => reads c || reads t || reads f
  end.

(** [e] holds a [Divide] node. *)
Fixpoint divides (e : Expr) : bool :=
  match e with
  | Ren | IntLiteral _ | FloatingPointLiteral _ | StringLiteral _
  | BooleanLiteral _ | Variable_ _ => false
  | Divide _ _ => true
  | Print e1 | Assign _ e1 | Not e1 => divides e1
  | Sequence es | Program es => existsb divides es
  | Add l r | Subtract l r | Multiply l r
  | And l r | Or l r
  | Lt l r | Lte l r | Gt l r | Gte l r | Eq l r | Ne l r
  | While l r => divides l || divides r
  | If c t f => divides c || divides t || divides f
  end.

(** [m] does not raise [ex]. *)
Definition never {A : Type} (ex : exn) (m : M A) : Prop :=
  snd m <> Raise ex.

(** ** The programs and states of the examples *)

(** The example programs of the properties. *)
Definition assign_then_read : Expr :=
  Sequence [Assign "x" (IntLiteral 1);
            Add (Variable_ "x") (IntLiteral 1)].

(** A state in which [x] holds a string. *)
Definition x_is_a_string : State :=
  StateNode "x" (VStr "a", String) EmptyState.

(** The type lock-in example. *)
Definition assign_int_then_string : Expr :=
  Sequence [Assign "x" (IntLiteral 1); Assign "x" (StringLiteral "a")].

(** The loop example: count [i] from 0 up to 5. *)
Definition count_to_five : Expr :=
  Sequence [Assign "i" (IntLiteral 0);
            While (Lt (Variable_ "i") (IntLiteral 5))
                  (Assign "i" (Add (Variable_ "i") (IntLiteral 1)))].

(** The bindings [i = 0], ..., [i = k] on top of [s], newest first. *)
Fixpoint counted (k : nat) (s : State) : State :=
  match k with
  | O => StateNode "i" (VInt 0, Integer) s
  | S k' => StateNode "i" (VInt (Z.of_nat k), Integer) (counted k' s)
  end.

(** The right operand assigns: its effect shows whether it was evaluated. *)
Definition false_and_assign : Expr :=
  And (BooleanLiteral false) (Assign "x" (BooleanLiteral true)).

(** The store of a run that has bound [y] to true: the empty state at
    location 0, the binding at location 1. *)
Definition store_with_y : Store.store :=
  fst (Store.set_value (fst (Store.new_EmptyState [])) 0%nat
         "y" (VBool true) Boolean).

(** A state in which [x] is 1. *)
Definition x_is_one : State := StateNode "x" (VInt 1, Integer) EmptyState.

(** A chain with an old binding of [x] under the current one, and the
    chain without the old binding. *)
Definition x_was_one_is_two : State :=
  StateNode "x" (VInt 2, Integer) (StateNode "x" (VInt 1, Integer) EmptyState).

Definition x_is_two : State := StateNode "x" (VInt 2, Integer) EmptyState.

(** * Lemmas *)

(** ** Type tags *)

Lemma type_eqb_eq (t1 t2 : RuntimeType) : type_eqb t1 t2 = true <-> t1 = t2.
Proof. destruct t1, t2; simpl; split; congruence. Qed.

Lemma type_eqb_refl (t : RuntimeType) : type_eqb t t = true.
Proof. destruct t; reflexivity. Qed.

(** ** The evaluation monad: laws and inversion *)

Section Monad.

Context {A B : Type}.

Lemma bind_ret_l (a : A) (f : A -> M B) : bind (ret a) f = f a.
Proof. unfold bind, ret. destruct (f a); reflexivity. Qed.

Lemma bind_Return (o : list output) (a : A) (f : A -> M B) :
  bind (o, Return a) f = (o ++ fst (f a), snd (f a)).
Proof. unfold bind. destruct (f a); reflexivity. Qed.

Lemma bind_Raise (o : list output) (e : exn) (f : A -> M B) :
  bind (o, Raise e) f = (o, Raise e).
Proof. reflexivity. Qed.

(** A bind that returns: both halves returned, and the output is the
    first half's followed by the second's. *)
Lemma bind_inv_Return (m : M A) (f : A -> M B) o b :
  bind m f = (o, Return b) ->
  exists o1 a o2,
    m = (o1, Return a) /\ f a = (o2, Return b) /\ o = o1 ++ o2.
Proof.
  destruct m as [o1 [a | e | ]]; simpl; try discriminate.
  destruct (f a) as [o2 r] eqn:Hf. intros H. inversion H; subst.
  exists o1, a, o2. auto.
Qed.

End Monad.

(** ** Fuel *)

Lemma fuel_le_refl {A : Type} (m : M A) : fuel_le m m.
Proof. intros _. reflexivity. Qed.

Lemma fuel_le_out_of_fuel {A : Type} (m : M A) : fuel_le out_of_fuel m.
Proof. intros H. exfalso. apply H. reflexivity. Qed.

Lemma fuel_le_bind {A B : Type} (m1 m2 : M A) (f1 f2 : A -> M B) :
  fuel_le m1 m2 ->
  (forall a, fuel_le (f1 a) (f2 a)) ->
  fuel_le (bind m1 f1) (bind m2 f2).
Proof.
  intros Hm Hf Hfin. destruct m1 as [o [a | e | ]].
  - rewrite (Hm ltac:(discriminate)). simpl in *.
    specialize (Hf a). destruct (f1 a) as [o1 r1].
    rewrite (Hf Hfin). reflexivity.
  - rewrite (Hm ltac:(discriminate)). reflexivity.
  - exfalso. apply Hfin. reflexivity.
Qed.

(** Both sides branch on the same test or bind the same way: compare them
    branch by branch. *)
Ltac fuel_le_step :=
  match goal with
  | |- fuel_le ?m ?m => apply fuel_le_refl
  | |- fuel_le out_of_fuel _ => apply fuel_le_out_of_fuel
  | |- fuel_le (bind _ _) (bind _ _) =>
      apply fuel_le_bind; [ | intros [[? ?] ?] ]
  | |- fuel_le (if ?b then _ else _) (if ?b then _ else _) => destruct b
  | |- fuel_le (match ?t with _ => _ end) (match ?t with _ => _ end) =>
      destruct t
  | H : forall e s, fuel_le (?ev1 e s) (?ev2 e s)
    |- fuel_le (?ev1 _ _) (?ev2 _ _) => apply H
  end.

Section Loops.

Variables ev1 ev2 : Expr -> State -> M result.
Hypothesis ev_le : forall e s, fuel_le (ev1 e s) (ev2 e s).

Lemma for_exprs_fuel_le (exprs : list Expr) (last : result) :
  fuel_le (for_exprs ev1 exprs last) (for_exprs ev2 exprs last).
Proof.
  revert last. induction exprs as [ | expr exprs IH]; intros [[v t] s]; simpl.
  - apply fuel_le_refl.
  - apply fuel_le_bind; [ apply ev_le | intros a; apply IH ].
Qed.

Lemma while_True_fuel_le (condition body : Expr) (k1 k2 : nat) :
  (k1 <= k2)%nat ->
  forall s,
    fuel_le (while_True ev1 condition body k1 s)
            (while_True ev2 condition body k2 s).
Proof.
  revert k2. induction k1 as [ | k1 IH]; intros k2 Hk s; simpl.
  - apply fuel_le_out_of_fuel.
  - destruct k2 as [ | k2]; [ lia | ]. simpl.
    repeat fuel_le_step. apply IH. lia.
Qed.

End Loops.

Lemma evaluate_fuel_le_S (n m : nat) :
  (n <= m)%nat ->
  (forall e s, fuel_le (evaluate n e s) (evaluate m e s)) ->
  forall e s, fuel_le (evaluate (S n) e s) (evaluate (S m) e s).
Proof.
  intros Hnm IH e s. destruct e; simpl; repeat fuel_le_step;
    auto using for_exprs_fuel_le, while_True_fuel_le.
Qed.

(** More fuel does not change an evaluation that has finished. *)
Lemma evaluate_fuel_le (n m : nat) :
  (n <= m)%nat ->
  forall e s, fuel_le (evaluate n e s) (evaluate m e s).
Proof.
  revert m. induction n as [ | n IH]; intros m Hnm.
  - intros e s. apply fuel_le_out_of_fuel.
  - destruct m as [ | m]; [ lia | ].
    apply evaluate_fuel_le_S; [ lia | apply IH; lia ].
Qed.

Lemma evaluate_fuel_mono (n m : nat) e s o r :
  evaluate n e s = (o, r) -> r <> OutOfFuel -> (n <= m)%nat ->
  evaluate m e s = (o, r).
Proof.
  intros H Hr Hnm. rewrite <- H. apply evaluate_fuel_le; [ exact Hnm | ].
  unfold finished. rewrite H. exact Hr.
Qed.

(** ** Values have the shape of their type *)

Lemma sat_bind {A B : Type} (P : A -> Prop) (Q : B -> Prop)
    (m : M A) (f : A -> M B) :
  sat P m -> (forall a, P a -> sat Q (f a)) -> sat Q (bind m f).
Proof.
  unfold sat. destruct m as [o [a | e | ]]; simpl; intros Hm Hf.
  - specialize (Hf a Hm). destruct (f a) as [o' r]. exact Hf.
  - exact Hm.
  - exact I.
Qed.

Lemma get_value_well_typed (s : State) (x : string) v t :
  well_typed s = true -> get_value s x = Some (v, t) -> has_type v t = true.
Proof.
  induction s as [ | name [v' t'] next IH]; simpl; [ discriminate | ].
  intros Hwt. apply andb_true_iff in Hwt as [Hv Hnext].
  destruct (String.eqb name x).
  - intros H. inversion H; subst. exact Hv.
  - apply IH. exact Hnext.
Qed.

(** Bind the result of a recursive call, naming its three components. *)
Tactic Notation "sat_ev" ident(v) ident(t) ident(s) :=
  eapply sat_bind; [ solve [ eauto ] | intros [[v t] s] [? ?] ].

Ltac sat_values :=
  repeat match goal with
  | H : type_eqb _ _ = true |- _ => apply type_eqb_eq in H; subst
  | H : has_type _ ?t = true |- _ => is_var t; destruct t
  | H : has_type ?v _ = true |- _ =>
      is_var v; destruct v; simpl in H; try discriminate H
  | H : has_type _ _ = true |- _ => clear H
  end.

Ltac sat_finish :=
  unfold sat, good, py_and, py_or; simpl;
  repeat match goal with
  | |- context [if ?b then _ else _] => destruct b; simpl
  end;
  auto.

(** A binary construct: both operands, the test that their types agree,
    then the operator on each shape. *)
Ltac sat_binary :=
  sat_ev vl tl s1; sat_ev vr tr s2;
  match goal with
  | |- context [type_eqb ?a ?b] => destruct (type_eqb a b) eqn:Ht
  end; simpl; [ | exact I ];
  sat_values; sat_finish.

Section WellTyped.

Variable ev : Expr -> State -> M result.
Hypothesis ev_good :
  forall e s, well_typed s = true -> sat good (ev e s).

Lemma for_exprs_well_typed (exprs : list Expr) (last : result) :
  good last -> sat good (for_exprs ev exprs last).
Proof.
  revert last. induction exprs as [ | expr exprs IH]; intros [[v t] s] Hg.
  - exact Hg.
  - simpl. destruct Hg as [_ Hs].
    eapply sat_bind; [ apply ev_good; exact Hs | intros a Ha; apply IH, Ha ].
Qed.

Lemma while_True_well_typed (condition body : Expr) (k : nat) (s : State) :
  well_typed s = true -> sat good (while_True ev condition body k s).
Proof.
  revert s. induction k as [ | k IH]; intros s Hs; simpl; [ exact I | ].
  sat_ev cv ct s1.
  destruct (type_eqb ct Boolean) eqn:Ht; simpl; [ | exact I ].
  destruct (eq_True cv); simpl; [ | split; assumption ].
  sat_ev bv bt s2. apply IH. assumption.
Qed.

End WellTyped.

(** From a state whose bindings are well typed, [evaluate] never raises the
    host's [TypeError] (no operator meets operands of mixed shapes), and
    the value it returns has the type it returns, in a state that is well
    typed again. *)
Theorem evaluate_well_typed (n : nat) (e : Expr) (s : State) :
  well_typed s = true -> sat good (evaluate n e s).
Proof.
  revert e s. induction n as [ | n IH]; intros e s Hs; [ exact I | ].
  destruct e; simpl; try (split; [ reflexivity | exact Hs ]);
    try solve [ sat_binary ].
  - (* Print *)
    sat_ev v t s1. destruct t; simpl; split; assumption.
  - apply for_exprs_well_typed; [ exact IH | split; [ reflexivity | exact Hs ] ].
  - apply for_exprs_well_typed; [ exact IH | split; [ reflexivity | exact Hs ] ].
  - (* Variable *)
    destruct (get_value s variable_name) as [[v t] | ] eqn:Hg; [ | exact I ].
    split; [ eapply get_value_well_typed; eassumption | exact Hs ].
  - (* Assign *)
    sat_ev v t s1.
    destruct (get_value s1 variable) as [[v' t'] | ]; simpl.
    + destruct (type_eqb t t'); simpl; [ | exact I ].
      unfold good; simpl. split; [ | apply andb_true_iff ]; auto.
    + unfold good; simpl. split; [ | apply andb_true_iff ]; auto.
  - (* Not *)
    sat_ev v t s1. destruct (type_eqb t Boolean); simpl; [ | exact I ].
    split; [ reflexivity | assumption ].
  - (* If *)
    sat_ev v t s1. destruct (type_eqb t Boolean); simpl; [ | exact I ].
    destruct (eq_True v); apply IH; assumption.
  - (* While *)
    apply while_True_well_typed; [ exact IH | exact Hs ].
Qed.

(** ** Evaluations that end *)

Lemma evaluates_intro (n : nat) e s o r :
  evaluate n e s = (o, r) -> r <> OutOfFuel -> evaluates e s o r.
Proof. intros H Hr. split; [ exact Hr | exists n; exact H ]. Qed.

(** From some fuel on, every run gives that end. *)
Lemma evaluates_fuel e s o r :
  evaluates e s o r ->
  exists n, forall m, (n <= m)%nat -> evaluate m e s = (o, r).
Proof.
  intros [Hr [n H]]. exists n. intros m Hm.
  eapply evaluate_fuel_mono; eassumption.
Qed.

(** An evaluation has one end. *)
Lemma evaluates_det e s o r o' r' :
  evaluates e s o r -> evaluates e s o' r' -> o = o' /\ r = r'.
Proof.
  intros H H'. apply evaluates_fuel in H as [n H], H' as [n' H'].
  specialize (H (Nat.max n n') ltac:(lia)).
  specialize (H' (Nat.max n n') ltac:(lia)).
  rewrite H in H'. inversion H'. auto.
Qed.

Lemma bind_ret_r {A : Type} (m : M A) : bind m ret = m.
Proof.
  destruct m as [o [a | e | ]]; simpl; try reflexivity.
  rewrite app_nil_r. reflexivity.
Qed.

Lemma bind_ext {A B : Type} (m : M A) (f g : A -> M B) :
  (forall a, f a = g a) -> bind m f = bind m g.
Proof.
  intros H. destruct m as [o [a | e | ]]; simpl; try reflexivity.
  rewrite H. reflexivity.
Qed.

Lemma bind_assoc {A B C : Type} (m : M A) (f : A -> M B) (g : B -> M C) :
  bind (bind m f) g = bind m (fun a => bind (f a) g).
Proof.
  destruct m as [o [a | e | ]]; simpl; try reflexivity.
  destruct (f a) as [o1 [b | e | ]]; simpl; try reflexivity.
  destruct (g b) as [o2 r]. rewrite app_assoc. reflexivity.
Qed.

(** The loop over a list that ends with other elements: the first part,
    then the rest from the result of the first part. *)
Lemma for_exprs_app ev (es1 es2 : list Expr) (last : result) :
  for_exprs ev (es1 ++ es2) last =
  (last' <- for_exprs ev es1 last ;; for_exprs ev es2 last').
Proof.
  revert last. induction es1 as [ | e es1 IH]; intros [[v t] s]; simpl.
  - destruct (for_exprs ev es2 (v, t, s)); reflexivity.
  - rewrite bind_assoc. apply bind_ext. intros a. apply IH.
Qed.

(** ** Tactics for the constructs *)

(** Every branch of a test ends the same way. *)
Ltac case_tests :=
  repeat match goal with
  | |- context [if ?b then _ else _] => destruct b; simpl
  | |- context [match ?x with _ => _ end] => is_var x; destruct x; simpl
  | H : context [if ?b then _ else _] |- _ => destruct b; simpl in H
  | H : context [match ?x with _ => _ end] |- _ =>
      is_var x; destruct x; simpl in H
  end.

(** Give two evaluations that end a common fuel. *)
Tactic Notation "common_fuel" hyp(H1) hyp(H2) ident(N) :=
  let n1 := fresh "n" in
  let n2 := fresh "n" in
  apply evaluates_fuel in H1 as [n1 H1];
  apply evaluates_fuel in H2 as [n2 H2];
  specialize (H1 (Nat.max n1 n2) (Nat.le_max_l n1 n2));
  specialize (H2 (Nat.max n1 n2) (Nat.le_max_r n1 n2));
  set (N := Nat.max n1 n2) in *; clearbody N.

(** A binary construct whose two operands return: run it with a fuel that
    is enough for both. *)
Ltac eval_binary H1 H2 :=
  common_fuel H1 H2 fuel;
  match goal with
  | H : evaluate ?n _ _ = _ |- _ => apply (evaluates_intro (S n))
  end;
  [ simpl; rewrite H1; simpl; rewrite H2; simpl;
    rewrite ?app_nil_r; try reflexivity
  | try discriminate ].

(** A construct whose first operand ends the evaluation, or is all of it. *)
Ltac eval_unary H :=
  let n := fresh "n" in
  apply evaluates_fuel in H as [n H];
  specialize (H n (Nat.le_refl n));
  apply (evaluates_intro (S n));
  [ simpl; rewrite H; simpl; rewrite ?app_nil_r; try reflexivity
  | try discriminate ].

(** ** The loops, one step at a time *)

Lemma evaluate_While (n : nat) (condition body : Expr) (s : State) :
  evaluate (S n) (While condition body) s =
  while_True (evaluate n) condition body n s.
Proof. reflexivity. Qed.

Lemma evaluate_Sequence (n : nat) (exprs : list Expr) (s : State) :
  evaluate (S n) (Sequence exprs) s =
  for_exprs (evaluate n) exprs (VNone, Unit, s).
Proof. reflexivity. Qed.

Lemma evaluate_Program (n : nat) (exprs : list Expr) (s : State) :
  evaluate (S n) (Program exprs) s =
  for_exprs (evaluate n) exprs (VNone, Unit, s).
Proof. reflexivity. Qed.

Lemma while_True_S ev (condition body : Expr) (k : nat) (s : State) :
  while_True ev condition body (S k) s =
  ('(condition_value, condition_type, new_state) <- ev condition s ;;
   if negb (type_eqb condition_type Boolean) then raise InterpTypeError
   else if negb (eq_True condition_value)
   then ret (condition_value, condition_type, new_state)
   else
     '(_, _, new_state) <- ev body new_state ;;
     while_True ev condition body k new_state).
Proof. reflexivity. Qed.

(** No evaluation ends without fuel. *)
Lemma evaluate_O e s o r : evaluate 0 e s = (o, r) -> r = OutOfFuel.
Proof. simpl. unfold out_of_fuel. intros H. inversion H. reflexivity. Qed.

(** An evaluation that ends, with the fuel as a successor. *)
Lemma evaluates_fuel_S e s o r :
  evaluates e s o r ->
  exists n, forall m, (n <= m)%nat -> evaluate (S m) e s = (o, r).
Proof.
  intros H. apply evaluates_fuel in H as [n H].
  exists n. intros m Hm. apply H. lia.
Qed.

(** The loop of [While] started with the fuel [n] for the expressions and
    [k] for the iterations, then with more of both. *)
Lemma while_True_more_fuel (n m k k' : nat) c b s o r :
  while_True (evaluate n) c b k s = (o, r) -> r <> OutOfFuel ->
  (n <= m)%nat -> (k <= k')%nat ->
  while_True (evaluate m) c b k' s = (o, r).
Proof.
  intros H Hr Hnm Hk. rewrite <- H.
  apply while_True_fuel_le;
    [ intros e s'; apply evaluate_fuel_le; exact Hnm | exact Hk | ].
  unfold finished. rewrite H. exact Hr.
Qed.

(** ** Lookup returns the most recent binding *)

(** [get_value] finds a binding exactly when the chain holds one for the
    name, and gives the one with no binding of that name before it. *)
Lemma get_value_Some_iff (s : State) (x : string) (vt : value * RuntimeType) :
  get_value s x = Some vt <->
  exists newer older,
    bindings s = newer ++ (x, vt) :: older /\
    Forall (fun b => fst b <> x) newer.
Proof.
  induction s as [ | name value next IH]; simpl.
  - split; [ discriminate | ].
    intros (newer & older & H & _). destruct newer; discriminate H.
  - destruct (String.eqb_spec name x) as [-> | Hne].
    + split.
      * intros H. inversion H; subst. exists [], (bindings next).
        split; [ reflexivity | constructor ].
      * intros (newer & older & H & Hnew). destruct newer as [ | b newer].
        -- simpl in H. inversion H. reflexivity.
        -- simpl in H. inversion H; subst. inversion Hnew; subst.
           simpl in *. contradiction.
    + rewrite IH. split.
      * intros (newer & older & H & Hnew).
        exists ((name, value) :: newer), older. simpl. rewrite H.
        split; [ reflexivity | constructor; [ exact Hne | exact Hnew ] ].
      * intros (newer & older & H & Hnew). destruct newer as [ | b newer].
        -- simpl in H. inversion H; subst. contradiction.
        -- simpl in H. inversion H; subst. inversion Hnew; subst.
           exists newer, older. auto.
Qed.

Lemma get_value_None_iff (s : State) (x : string) :
  get_value s x = None <-> Forall (fun b => fst b <> x) (bindings s).
Proof.
  induction s as [ | name value next IH]; simpl.
  - split; [ constructor | reflexivity ].
  - destruct (String.eqb_spec name x) as [-> | Hne].
    + split; [ discriminate | ].
      intros H. inversion H; subst. simpl in *. contradiction.
    + rewrite IH. split.
      * intros H. constructor; [ exact Hne | exact H ].
      * intros H. inversion H; subst. assumption.
Qed.

(** ** The store *)

(** An object of the store is still there, unchanged, after an
    allocation. *)
Lemma alloc_keeps (h : Store.store) (o : Store.object) (l : Store.loc) :
  (l < length h)%nat ->
  nth_error (fst (Store.alloc h o)) l = nth_error h l.
Proof. intros Hl. simpl. apply nth_error_app1. exact Hl. Qed.

Lemma alloc_new (h : Store.store) (o : Store.object) :
  nth_error (fst (Store.alloc h o)) (snd (Store.alloc h o)) = Some o.
Proof.
  simpl. rewrite nth_error_app2 by lia. rewrite Nat.sub_diag. reflexivity.
Qed.

Lemma alloc_well_formed (h : Store.store) (o : Store.object) :
  Store.well_formed h ->
  (forall name value next_state,
     o = Store.StateObject name value next_state ->
     (next_state < length h)%nat) ->
  Store.well_formed (fst (Store.alloc h o)).
Proof.
  intros Hwf Ho l name value next Hl. simpl in Hl.
  destruct (Nat.lt_ge_cases l (length h)) as [Hlt | Hge].
  - rewrite nth_error_app1 in Hl by exact Hlt. eapply Hwf. exact Hl.
  - rewrite nth_error_app2 in Hl by exact Hge.
    destruct (l - length h)%nat as [ | k] eqn:Hk; simpl in Hl.
    + inversion Hl; subst. specialize (Ho _ _ _ eq_refl). lia.
    + destruct k; discriminate Hl.
Qed.

Lemma well_formed_nil : Store.well_formed [].
Proof. intros l name value next H. destruct l; discriminate H. Qed.

Lemma new_EmptyState_well_formed (h : Store.store) :
  Store.well_formed h -> Store.well_formed (fst (Store.new_EmptyState h)).
Proof.
  intros Hwf. apply alloc_well_formed; [ exact Hwf | discriminate ].
Qed.

Lemma set_value_well_formed (h : Store.store) (self : Store.loc) name v t :
  Store.well_formed h -> (self < length h)%nat ->
  Store.well_formed (fst (Store.set_value h self name v t)).
Proof.
  intros Hwf Hself. apply alloc_well_formed; [ exact Hwf | ].
  intros name' value' next H. inversion H; subst. exact Hself.
Qed.

(** In a well-formed store the chain of an object at location [l] is read
    with any fuel above [l]. *)
Lemma chain_loop_total (h : Store.store) :
  Store.well_formed h ->
  forall fuel l, (l < length h)%nat -> (l < fuel)%nat ->
  exists s, Store.chain_loop fuel h l = Some s.
Proof.
  intros Hwf. induction fuel as [ | fuel IH]; intros l Hl Hf; [ lia | ].
  simpl. destruct (nth_error h l) as [[ | name value next] | ] eqn:Hn.
  - eexists. reflexivity.
  - pose proof (Hwf _ _ _ _ Hn) as Hnext.
    destruct (IH next) as [s Hs]; [ lia | lia | ].
    rewrite Hs. eexists. reflexivity.
  - apply nth_error_None in Hn. lia.
Qed.

(** The loop over the objects computes the lookup of the chain. *)
Lemma get_value_loop_chain (h : Store.store) (x : string) :
  forall fuel l s,
    Store.chain_loop fuel h l = Some s ->
    Store.get_value_loop fuel h l x = Some (get_value s x).
Proof.
  induction fuel as [ | fuel IH]; intros l s; simpl; [ discriminate | ].
  destruct (nth_error h l) as [[ | name value next] | ]; try discriminate.
  - intros H. inversion H; subst. reflexivity.
  - destruct (Store.chain_loop fuel h next) as [s' | ] eqn:Hs;
      [ | discriminate ].
    intros H. inversion H; subst. simpl.
    destruct (String.eqb name x); [ reflexivity | ].
    apply IH. exact Hs.
Qed.

(** Objects allocated later and more fuel do not change a chain. *)
Lemma chain_loop_extend (h h' : Store.store) :
  forall fuel fuel' l s,
    Store.chain_loop fuel h l = Some s -> (fuel <= fuel')%nat ->
    Store.chain_loop fuel' (h ++ h') l = Some s.
Proof.
  induction fuel as [ | fuel IH]; intros fuel' l s; simpl; [ discriminate | ].
  intros H Hf. destruct fuel' as [ | fuel']; [ lia | ]. simpl.
  destruct (nth_error h l) as [o | ] eqn:Hn; [ | discriminate ].
  rewrite nth_error_app1
    by (apply nth_error_Some; rewrite Hn; discriminate).
  rewrite Hn. destruct o as [ | name value next]; [ exact H | ].
  destruct (Store.chain_loop fuel h next) as [s' | ] eqn:Hs;
    [ | discriminate ].
  rewrite (IH fuel' next s' Hs) by lia. exact H.
Qed.

Lemma chain_total (h : Store.store) (l : Store.loc) :
  Store.well_formed h -> (l < length h)%nat ->
  exists s, Store.chain h l = Some s.
Proof. intros Hwf Hl. apply chain_loop_total; assumption. Qed.

(** ** The state given and the state returned *)

Lemma on_return_bind {A B : Type} (P : A -> Prop) (Q : B -> Prop)
    (m : M A) (f : A -> M B) :
  on_return P m -> (forall a, P a -> on_return Q (f a)) ->
  on_return Q (bind m f).
Proof.
  unfold on_return. destruct m as [o [a | e | ]]; simpl; intros Hm Hf.
  - specialize (Hf a Hm). destruct (f a) as [o' r]. exact Hf.
  - exact I.
  - exact I.
Qed.

Lemma on_return_bind_any {A B : Type} (Q : B -> Prop)
    (m : M A) (f : A -> M B) :
  (forall a, on_return Q (f a)) -> on_return Q (bind m f).
Proof.
  intros Hf. apply (on_return_bind (fun _ => True)); [ | auto ].
  unfold on_return. destruct (snd m); exact I.
Qed.

Lemma on_return_weaken {A : Type} (P Q : A -> Prop) (m : M A) :
  (forall a, P a -> Q a) -> on_return P m -> on_return Q m.
Proof.
  unfold on_return. intros H. destruct (snd m); auto.
Qed.

Lemma on_return_evaluates {P : result -> Prop} e s o r :
  (forall n, on_return P (evaluate n e s)) ->
  evaluates e s o (Return r) -> P r.
Proof.
  intros H [_ [n Hn]]. specialize (H n). unfold on_return in H.
  rewrite Hn in H. exact H.
Qed.

(** The test of [Assign], read as [assignable]. *)
Lemma assign_test_false (s : State) (name : string) (t : RuntimeType) :
  (type_ne_opt t
     match get_value s name with
     | Some (_, variable_type) => Some variable_type
     | None => None
     end &&
   match
     match get_value s name with
     | Some (_, variable_type) => Some variable_type
     | None => None
     end
   with
   | Some _ => true
   | None => false
   end) = false <-> assignable s name t.
Proof.
  unfold assignable. destruct (get_value s name) as [[v t'] | ]; simpl.
  - rewrite andb_true_r, negb_false_iff, type_eqb_eq. split.
    + intros ->. right. exists v. reflexivity.
    + intros [H | [v' H]]; [ discriminate | congruence ].
  - split; auto.
Qed.

Section StateRelation.

Variable R : State -> State -> Prop.
Hypothesis R_refl : forall s, R s s.
Hypothesis R_trans : forall s1 s2 s3, R s1 s2 -> R s2 s3 -> R s1 s3.
Hypothesis R_assign :
  forall s name v t, assignable s name t -> R s (set_value s name v t).

Let related (s : State) (r : result) : Prop := R s (state_of r).

Tactic Notation "rel_ev" ident(v) ident(t) ident(s) ident(H) :=
  eapply on_return_bind; [ solve [ eauto ] | intros [[v t] s] H ].

(** The end of a case: tests, host operators, then a [ret] or a [raise]. *)
Ltac rel_tail :=
  repeat match goal with
  | |- on_return _ (if ?b then _ else _) => destruct b
  | |- on_return _ (match ?x with _ => _ end) => destruct x
  | |- on_return _ (bind _ _) => apply on_return_bind_any; intros
  | |- on_return _ (raise _) => exact I
  | |- on_return _ (ret _) => unfold on_return, related; simpl; eauto
  end.

Section Loops.

Variable ev : Expr -> State -> M result.
Hypothesis ev_related : forall e s, on_return (related s) (ev e s).

Lemma for_exprs_related (exprs : list Expr) (s : State) (last : result) :
  related s last -> on_return (related s) (for_exprs ev exprs last).
Proof.
  revert last. induction exprs as [ | expr exprs IH]; intros [[v t] s1] H.
  - exact H.
  - simpl. eapply on_return_bind; [ apply ev_related | ].
    intros [[v' t'] s2] H'. apply IH. unfold related in *. simpl in *.
    eauto.
Qed.

Lemma while_True_related (condition body : Expr) (k : nat) (s s1 : State) :
  R s s1 -> on_return (related s) (while_True ev condition body k s1).
Proof.
  revert s1. induction k as [ | k IH]; intros s1 H; simpl; [ exact I | ].
  eapply on_return_bind; [ apply ev_related | ].
  intros [[cv ct] s2] Hc. unfold related in Hc. simpl in Hc.
  destruct (negb (type_eqb ct Boolean)); [ exact I | ].
  destruct (negb (eq_True cv)).
  - unfold on_return, related. simpl. eauto.
  - eapply on_return_bind; [ apply ev_related | ].
    intros [[bv bt] s3] Hb. unfold related in Hb. simpl in Hb.
    apply IH. eauto.
Qed.

End Loops.

(** A relation that holds of a state and itself, composes, and holds of a
    state and its extension by an assignment that passed the test, holds
    of the state [evaluate] is given and the state it returns. *)
Lemma evaluate_related (n : nat) :
  forall e s, on_return (related s) (evaluate n e s).
Proof.
  induction n as [ | n IH]; intros e s; [ exact I | ].
  destruct e; simpl.
  all: try (apply for_exprs_related; [ exact IH | apply R_refl ]).
  all: try (apply while_True_related; [ exact IH | apply R_refl ]).
  all: try solve [ rel_tail ].
  all: try solve [ rel_ev lv lt s1 Hl; rel_ev rv rt s2 Hr;
                   unfold related in *; simpl in *; rel_tail ].
  - (* Print *)
    rel_ev v t s1 H. unfold related in *. simpl in *. rel_tail.
  - (* Assign *)
    rel_ev v t s1 H. unfold related in H. simpl in H.
    match goal with
    | |- on_return _ (if ?b then _ else _) => destruct b eqn:Ht
    end; [ exact I | ].
    apply assign_test_false in Ht. unfold on_return, related. simpl.
    eapply R_trans; [ exact H | apply R_assign; exact Ht ].
  - (* Not *)
    rel_ev v t s1 H. unfold related in *. simpl in *. rel_tail.
  - (* If *)
    rel_ev cv ct s1 H. unfold related in H. simpl in H.
    destruct (negb (type_eqb ct Boolean)); [ exact I | ].
    destruct (eq_True cv);
      (eapply on_return_weaken; [ | apply IH ]);
      intros [[v t] s2] H2; unfold related in *; simpl in *; eauto.
Qed.

End StateRelation.

Lemma get_value_In (s : State) (x : string) vt :
  get_value s x = Some vt -> In (x, vt) (bindings s).
Proof.
  intros H. apply get_value_Some_iff in H as (newer & older & -> & _).
  apply in_or_app. right. left. reflexivity.
Qed.

Lemma get_value_None_not_In (s : State) (x : string) vt :
  get_value s x = None -> ~ In (x, vt) (bindings s).
Proof.
  intros H Hin. apply get_value_None_iff in H.
  rewrite Forall_forall in H. apply (H _ Hin). reflexivity.
Qed.

Lemma extends_refl s : extends s s.
Proof. exists []. reflexivity. Qed.

Lemma extends_trans s1 s2 s3 : extends s1 s2 -> extends s2 s3 -> extends s1 s3.
Proof.
  intros [n1 H1] [n2 H2]. exists (n2 ++ n1).
  rewrite H2, H1, app_assoc. reflexivity.
Qed.

Lemma extends_set_value s name v t : extends s (set_value s name v t).
Proof. exists [(name, (v, t))]. reflexivity. Qed.

Lemma keeps_types_refl s : keeps_types s s.
Proof. intros x v t H. exists v. exact H. Qed.

Lemma keeps_types_trans s1 s2 s3 :
  keeps_types s1 s2 -> keeps_types s2 s3 -> keeps_types s1 s3.
Proof.
  intros H1 H2 x v t H. destruct (H1 _ _ _ H) as [v' H'].
  exact (H2 _ _ _ H').
Qed.

Lemma keeps_types_set_value s name v t :
  assignable s name t -> keeps_types s (set_value s name v t).
Proof.
  intros Ha x v0 t0 H. simpl.
  destruct (String.eqb_spec name x) as [-> | Hne].
  - exists v. destruct Ha as [Ha | [v' Ha]]; congruence.
  - exists v0. exact H.
Qed.

Lemma one_type_per_name_set_value s name v t :
  assignable s name t -> one_type_per_name s ->
  one_type_per_name (set_value s name v t).
Proof.
  intros Ha Hs.
  assert (Hname : forall v' t', In (name, (v', t')) (bindings s) -> t' = t).
  { intros v' t' Hin. destruct Ha as [Ha | [v0 Ha]].
    - exfalso. exact (get_value_None_not_In _ _ _ Ha Hin).
    - apply get_value_In in Ha. exact (Hs _ _ _ _ _ Hin Ha). }
  intros x v1 t1 v2 t2 H1 H2. simpl in H1, H2.
  destruct H1 as [H1 | H1], H2 as [H2 | H2].
  - congruence.
  - inversion H1; subst. symmetry. eapply Hname. exact H2.
  - inversion H2; subst. eapply Hname. exact H1.
  - exact (Hs _ _ _ _ _ H1 H2).
Qed.

Section AssignFree.

Let same (s : State) (r : result) : Prop := state_of r = s.

Section Loops.

Variable ev : Expr -> State -> M result.
Hypothesis ev_same :
  forall e s, assigns e = false -> on_return (same s) (ev e s).

Lemma for_exprs_same (exprs : list Expr) (s : State) (last : result) :
  existsb assigns exprs = false ->
  same s last -> on_return (same s) (for_exprs ev exprs last).
Proof.
  revert last. induction exprs as [ | expr exprs IH]; intros [[v t] s1] He H.
  - exact H.
  - simpl in He. apply orb_false_iff in He as [He1 He2].
    unfold same in H. simpl in H. subst s1. simpl.
    eapply on_return_bind; [ apply ev_same; exact He1 | ].
    intros a Ha. apply IH; assumption.
Qed.

Lemma while_True_same (condition body : Expr) (k : nat) (s : State) :
  assigns condition = false -> assigns body = false ->
  on_return (same s) (while_True ev condition body k s).
Proof.
  intros Hc Hb. induction k as [ | k IH]; simpl; [ exact I | ].
  eapply on_return_bind; [ apply ev_same; exact Hc | ].
  intros [[cv ct] s1] H1. unfold same in H1. simpl in H1. subst s1.
  destruct (negb (type_eqb ct Boolean)); [ exact I | ].
  destruct (negb (eq_True cv)); [ reflexivity | ].
  eapply on_return_bind; [ apply ev_same; exact Hb | ].
  intros [[bv bt] s2] H2. unfold same in H2. simpl in H2. subst s2.
  exact IH.
Qed.

End Loops.

Ltac same_tail :=
  repeat match goal with
  | |- on_return _ (if ?b then _ else _) => destruct b
  | |- on_return _ (match ?x with _ => _ end) => destruct x
  | |- on_return _ (bind _ _) => apply on_return_bind_any; intros
  | |- on_return _ (raise _) => exact I
  | |- on_return _ (ret _) => reflexivity
  end.

Tactic Notation "same_ev" ident(v) ident(t) ident(s) :=
  eapply on_return_bind;
  [ solve [ eauto ]
  | let H := fresh "H" in
    intros [[v t] s] H; unfold same in H; simpl in H; subst s ].

Lemma evaluate_same (n : nat) :
  forall e s, assigns e = false -> on_return (same s) (evaluate n e s).
Proof.
  induction n as [ | n IH]; intros e s He; [ exact I | ].
  destruct e; simpl in He; try discriminate He; simpl;
    repeat match goal with
    | H : _ || _ = false |- _ => apply orb_false_iff in H as [? ?]
    end.
  all: try (apply for_exprs_same; [ exact IH | assumption | reflexivity ]).
  all: try (apply while_True_same; [ exact IH | assumption | assumption ]).
  all: try solve [ same_tail ].
  all: try solve [ same_ev lv lt s1; same_ev rv rt s2; same_tail ].
  - same_ev v t s1. same_tail.
  - same_ev v t s1. same_tail.
  - same_ev cv ct s1.
    destruct (negb (type_eqb ct Boolean)); [ exact I | ].
    destruct (eq_True cv); apply IH; assumption.
Qed.

End AssignFree.

(** ** The type of what is returned *)

Ltac type_tail :=
  repeat match goal with
  | |- on_return _ (if ?b then _ else _) => destruct b
  | |- on_return _ (match ?x with _ => _ end) => destruct x
  | |- on_return _ (bind _ _) => apply on_return_bind_any; intros
  | |- on_return _ (raise _) => exact I
  | |- on_return _ (ret _) => unfold on_return; simpl; auto
  end.

(** ** Sequences *)

(** The loop over a list that is not empty does not read the value and
    the type it starts with. *)
Lemma for_exprs_first ev (exprs : list Expr) v t v' t' (s : State) :
  exprs <> [] ->
  for_exprs ev exprs (v, t, s) = for_exprs ev exprs (v', t', s).
Proof. destruct exprs; [ contradiction | reflexivity ]. Qed.

(** ** The loop and its unrolling *)

Lemma evaluate_If (n : nat) (condition true_ false_ : Expr) (s : State) :
  evaluate (S n) (If condition true_ false_) s =
  ('(condition_value, condition_type, new_state) <- evaluate n condition s ;;
   if negb (type_eqb condition_type Boolean) then raise InterpTypeError
   else if eq_True condition_value
   then evaluate n true_ new_state
   else evaluate n false_ new_state).
Proof. reflexivity. Qed.

Lemma sat_on_return {A : Type} (P : A -> Prop) (m : M A) :
  sat P m -> on_return P m.
Proof.
  unfold sat, on_return. destruct (snd m) as [a | e | ]; auto.
Qed.

(** [fuel_le] through a bind, for the results the first half can return. *)
Lemma fuel_le_bind_on {A B : Type} (P : A -> Prop) (m1 m2 : M A)
    (f1 f2 : A -> M B) :
  on_return P m1 ->
  fuel_le m1 m2 ->
  (forall a, P a -> fuel_le (f1 a) (f2 a)) ->
  fuel_le (bind m1 f1) (bind m2 f2).
Proof.
  intros HP Hm Hf Hfin. destruct m1 as [o [a | e | ]].
  - rewrite (Hm ltac:(discriminate)). simpl in *.
    specialize (Hf a HP). destruct (f1 a) as [o1 r1].
    rewrite (Hf Hfin). reflexivity.
  - rewrite (Hm ltac:(discriminate)). reflexivity.
  - exfalso. apply Hfin. reflexivity.
Qed.

(** A value of type Boolean is a truth value. *)
Lemma has_type_Boolean (v : value) :
  has_type v Boolean = true -> exists b, v = VBool b.
Proof. destruct v; try discriminate. intros _. eexists. reflexivity. Qed.

Lemma While_fuel_le_unrolled (c b : Expr) (s : State) (n : nat) :
  well_typed s = true ->
  fuel_le (evaluate n (While c b) s) (evaluate (S (S n)) (unrolled c b) s).
Proof.
  intros Hs. destruct n as [ | [ | k]];
    [ apply fuel_le_out_of_fuel | apply fuel_le_out_of_fuel | ].
  unfold unrolled. rewrite evaluate_While, while_True_S, evaluate_If.
  apply (fuel_le_bind_on good).
  - apply sat_on_return, evaluate_well_typed. exact Hs.
  - apply evaluate_fuel_le. lia.
  - intros [[cv ct] s1] [Hcv Hs1].
    destruct (type_eqb ct Boolean) eqn:Hct; [ | apply fuel_le_refl ].
    apply type_eqb_eq in Hct. subst ct.
    apply has_type_Boolean in Hcv as [bb ->].
    cbn [negb eq_True]. destruct bb; cbn [negb].
    + rewrite evaluate_Sequence. cbn [for_exprs].
      apply fuel_le_bind; [ apply evaluate_fuel_le; lia | ].
      intros [[bv bt] s2]. rewrite bind_ret_r, evaluate_While.
      apply while_True_fuel_le; [ | lia ].
      intros e s'. apply evaluate_fuel_le. lia.
    + apply fuel_le_refl.
Qed.

Lemma unrolled_fuel_le_While (c b : Expr) (s : State) (n : nat) :
  well_typed s = true ->
  fuel_le (evaluate n (unrolled c b) s) (evaluate (S n) (While c b) s).
Proof.
  intros Hs. destruct n as [ | k]; [ apply fuel_le_out_of_fuel | ].
  unfold unrolled. rewrite evaluate_While, while_True_S, evaluate_If.
  apply (fuel_le_bind_on good).
  - apply sat_on_return, evaluate_well_typed. exact Hs.
  - apply evaluate_fuel_le. lia.
  - intros [[cv ct] s1] [Hcv Hs1].
    destruct (type_eqb ct Boolean) eqn:Hct; [ | apply fuel_le_refl ].
    apply type_eqb_eq in Hct. subst ct.
    apply has_type_Boolean in Hcv as [bb ->].
    cbn [negb eq_True]. destruct bb; cbn [negb].
    + destruct k as [ | k]; [ apply fuel_le_out_of_fuel | ].
      rewrite evaluate_Sequence. cbn [for_exprs].
      apply fuel_le_bind; [ apply evaluate_fuel_le; lia | ].
      intros [[bv bt] s2]. rewrite bind_ret_r.
      destruct k as [ | k]; [ apply fuel_le_out_of_fuel | ].
      rewrite evaluate_While.
      apply while_True_fuel_le; [ | lia ].
      intros e s'. apply evaluate_fuel_le. lia.
    + destruct k as [ | k]; [ apply fuel_le_out_of_fuel | apply fuel_le_refl ].
Qed.

(** ** What is written *)

Lemma silent_bind {A B : Type} (m : M A) (f : A -> M B) :
  silent m -> (forall a, silent (f a)) -> silent (bind m f).
Proof.
  unfold silent. destruct m as [o [a | e | ]]; simpl; intros Hm Hf; auto.
  specialize (Hf a). destruct (f a) as [o' r]. simpl in *. subst.
  reflexivity.
Qed.

(** A host operator writes nothing. *)
Ltac host_silent :=
  unfold silent, py_add, py_sub, py_mul, py_truediv, py_floordiv,
    py_gt, py_ge, py_lt, py_le, py_eq, py_ne;
  repeat match goal with
  | |- context [match ?v with _ => _ end] => destruct v
  end;
  reflexivity.

Ltac silent_tail :=
  repeat match goal with
  | |- silent (if ?b then _ else _) => destruct b
  | |- silent (match ?x with _ => _ end) => destruct x
  | |- silent (bind _ _) =>
      apply silent_bind; [ first [ solve [ auto ] | host_silent ] | intros ]
  | |- silent (raise _) => reflexivity
  | |- silent (ret _) => reflexivity
  | |- silent _ => solve [ auto ]
  end.

Section Silent.

Variable ev : Expr -> State -> M result.
Hypothesis ev_silent : forall e s, prints e = false -> silent (ev e s).

Lemma for_exprs_silent (exprs : list Expr) (last : result) :
  existsb prints exprs = false -> silent (for_exprs ev exprs last).
Proof.
  revert last. induction exprs as [ | expr exprs IH]; intros [[v t] s] He.
  - reflexivity.
  - simpl in He. apply orb_false_iff in He as [He1 He2]. simpl.
    apply silent_bind; auto.
Qed.

Lemma while_True_silent (condition body : Expr) (k : nat) (s : State) :
  prints condition = false -> prints body = false ->
  silent (while_True ev condition body k s).
Proof.
  intros Hc Hb. revert s. induction k as [ | k IH]; intros s; simpl;
    [ reflexivity | ].
  apply silent_bind; [ auto | ]. intros [[cv ct] s1].
  destruct (negb (type_eqb ct Boolean)); [ reflexivity | ].
  destruct (negb (eq_True cv)); [ reflexivity | ].
  apply silent_bind; [ auto | ]. intros [[bv bt] s2]. apply IH.
Qed.

End Silent.

Lemma evaluate_silent (n : nat) :
  forall e s, prints e = false -> silent (evaluate n e s).
Proof.
  induction n as [ | n IH]; intros e s He; [ reflexivity | ].
  destruct e; simpl in He; try discriminate He; simpl;
    repeat match goal with
    | H : _ || _ = false |- _ => apply orb_false_iff in H as [? ?]
    end.
  all: try (apply for_exprs_silent; [ exact IH | assumption ]).
  all: try (apply while_True_silent; [ exact IH | assumption | assumption ]).
  all: try solve [ silent_tail ].
  all: try solve [ apply silent_bind; [ auto | intros [[lv lt] s1] ];
                   apply silent_bind; [ auto | intros [[rv rt] s2] ];
                   silent_tail ].
  all: apply silent_bind; [ auto | intros [[v t] s1] ]; silent_tail.
Qed.

Lemma chain_loop_more_fuel (h : Store.store) fuel fuel' l s :
  Store.chain_loop fuel h l = Some s -> (fuel <= fuel')%nat ->
  Store.chain_loop fuel' h l = Some s.
Proof.
  intros H Hf. rewrite <- (app_nil_r h).
  eapply chain_loop_extend; eassumption.
Qed.

(** ** The order of integers and of strings *)

Lemma string_compare_refl (a : string) : String.compare a a = Datatypes.Eq.
Proof.
  pose proof (String.compare_antisym a a) as H.
  destruct (String.compare a a); simpl in H; congruence.
Qed.

(** The order of strings: [<=] is [<] or [==], [>] is not [<=], [>=] is
    not [<]. *)
Lemma string_order (a b : string) :
  String.leb a b = String.ltb a b || String.eqb a b /\
  String.ltb b a = negb (String.leb a b) /\
  String.leb b a = negb (String.ltb a b).
Proof.
  unfold String.leb, String.ltb. rewrite (String.compare_antisym b a).
  destruct (String.eqb_spec a b) as [-> | Hne].
  - rewrite string_compare_refl. auto.
  - destruct (String.compare a b) eqn:Hc; simpl; auto.
    apply String.compare_eq_iff in Hc. contradiction.
Qed.

Lemma integer_order (a b : Z) :
  (a <=? b) = (a <? b) || (a =? b) /\
  (b <? a) = negb (a <=? b) /\
  (b <=? a) = negb (a <? b).
Proof.
  destruct (Z.leb_spec a b), (Z.ltb_spec a b), (Z.eqb_spec a b),
    (Z.ltb_spec b a), (Z.leb_spec b a); simpl; repeat split;
    try reflexivity; lia.
Qed.

(** ** Runs of the examples *)

(** Literals and the expressions of the examples end. *)
Ltac runs n := apply (evaluates_intro n); [ reflexivity | discriminate ].

(** ** States that answer every lookup alike *)

Lemma alike_bind {A B : Type} (RA : A -> A -> Prop) (RB : B -> B -> Prop)
    (m m' : M A) (f f' : A -> M B) :
  alike RA m m' ->
  (forall a a', RA a a' -> alike RB (f a) (f' a')) ->
  alike RB (bind m f) (bind m' f').
Proof.
  unfold alike. destruct m as [o [a | e | ]], m' as [o' [a' | e' | ]];
    simpl; intros [Ho Hr] Hf; try contradiction; subst; auto.
  specialize (Hf a a' Hr).
  destruct (f a) as [o1 r1], (f' a') as [o1' r1']. simpl in *.
  destruct Hf as [-> Hf]. auto.
Qed.

Lemma alike_refl {A : Type} (m : M A) : alike Logic.eq m m.
Proof.
  unfold alike. split; [ reflexivity | ]. destruct (snd m); auto.
Qed.

Lemma same_lookups_set_value s s' x v t :
  same_lookups s s' -> same_lookups (set_value s x v t) (set_value s' x v t).
Proof.
  intros H y. simpl. destruct (String.eqb x y); [ reflexivity | apply H ].
Qed.

Ltac alike_tail :=
  repeat match goal with
  | H : same_result (_, _, _) (_, _, _) |- _ =>
      destruct H as (? & ? & ?); subst
  | |- alike _ (if ?b then _ else _) (if ?b then _ else _) => destruct b
  | |- alike _ (match ?x with _ => _ end) (match ?x with _ => _ end) =>
      destruct x
  | |- alike _ (bind ?m _) (bind ?m _) =>
      apply (alike_bind Logic.eq); [ apply alike_refl | intros ? ? <- ]
  | |- alike _ (raise _) (raise _) => split; reflexivity
  | |- alike _ (ret _) (ret _) =>
      split; [ reflexivity | simpl; auto using same_lookups_set_value ]
  end.

Section Alike.

Variable ev : Expr -> State -> M result.
Hypothesis ev_alike :
  forall e s s', same_lookups s s' -> alike same_result (ev e s) (ev e s').

Lemma for_exprs_alike (exprs : list Expr) (last last' : result) :
  same_result last last' ->
  alike same_result (for_exprs ev exprs last) (for_exprs ev exprs last').
Proof.
  revert last last'.
  induction exprs as [ | expr exprs IH];
    intros [[v t] s] [[v' t'] s'] H.
  - split; [ reflexivity | exact H ].
  - simpl. destruct H as (_ & _ & Hs).
    eapply alike_bind; [ apply ev_alike; exact Hs | ].
    intros a a' Ha. apply IH. exact Ha.
Qed.

Lemma while_True_alike (condition body : Expr) (k : nat) (s s' : State) :
  same_lookups s s' ->
  alike same_result (while_True ev condition body k s)
                    (while_True ev condition body k s').
Proof.
  revert s s'. induction k as [ | k IH]; intros s s' Hs; simpl.
  - split; reflexivity.
  - eapply alike_bind; [ apply ev_alike; exact Hs | ].
    intros [[cv ct] s1] [[cv' ct'] s1'] (<- & <- & Hs1).
    destruct (negb (type_eqb ct Boolean)); [ split; reflexivity | ].
    destruct (negb (eq_True cv)); [ split; [ reflexivity | simpl; auto ] | ].
    eapply alike_bind; [ apply ev_alike; exact Hs1 | ].
    intros [[bv bt] s2] [[bv' bt'] s2'] (_ & _ & Hs2).
    apply IH. exact Hs2.
Qed.

End Alike.

Lemma evaluate_alike (n : nat) :
  forall e s s',
    same_lookups s s' -> alike same_result (evaluate n e s) (evaluate n e s').
Proof.
  induction n as [ | n IH]; intros e s s' Hs; [ split; reflexivity | ].
  destruct e; simpl.
  all: try (apply for_exprs_alike; [ exact IH | simpl; auto ]).
  all: try (apply while_True_alike; [ exact IH | exact Hs ]).
  all: try solve [ alike_tail ].
  all: try solve
         [ eapply alike_bind; [ apply IH; exact Hs | ];
           intros [[lv lt] s1] [[lv' lt'] s1'] (<- & <- & Hs1);
           eapply alike_bind; [ apply IH; exact Hs1 | ];
           intros [[rv rt] s2] [[rv' rt'] s2'] (<- & <- & Hs2);
           alike_tail ].
  - (* Print *)
    eapply alike_bind; [ apply IH; exact Hs | ].
    intros [[v t] s1] [[v' t'] s1'] (<- & <- & Hs1).
    apply (alike_bind Logic.eq); [ apply alike_refl | intros ? ? <- ].
    alike_tail.
  - (* Variable *)
    rewrite <- (Hs variable_name). alike_tail.
  - (* Assign *)
    eapply alike_bind; [ apply IH; exact Hs | ].
    intros [[v t] s1] [[v' t'] s1'] (<- & <- & Hs1).
    rewrite <- (Hs1 variable). alike_tail.
  - (* Not *)
    eapply alike_bind; [ apply IH; exact Hs | ].
    intros [[v t] s1] [[v' t'] s1'] (<- & <- & Hs1). alike_tail.
  - (* If *)
    eapply alike_bind; [ apply IH; exact Hs | ].
    intros [[v t] s1] [[v' t'] s1'] (<- & <- & Hs1).
    destruct (negb (type_eqb t Boolean)); [ split; reflexivity | ].
    destruct (eq_True v); apply IH; exact Hs1.
Qed.

(** ** What is raised *)

Lemma never_bind {A B : Type} (ex : exn) (m : M A) (f : A -> M B) :
  never ex m -> (forall a, never ex (f a)) -> never ex (bind m f).
Proof.
  unfold never. destruct m as [o [a | e | ]]; simpl; intros Hm Hf.
  - specialize (Hf a). destruct (f a) as [o' r]. exact Hf.
  - intros H. apply Hm. inversion H. reflexivity.
  - discriminate.
Qed.

(** The exceptions of the host operators: [TypeError], and
    [ZeroDivisionError] from the two divisions. *)
Ltac host_never :=
  unfold never, py_add, py_sub, py_mul, py_truediv, py_floordiv,
    py_gt, py_ge, py_lt, py_le, py_eq, py_ne;
  repeat match goal with
  | |- context [match ?v with _ => _ end] => destruct v
  end;
  simpl; discriminate.

Ltac never_tail :=
  repeat match goal with
  | |- never _ (if ?b then _ else _) => destruct b
  | |- never _ (match ?x with _ => _ end) => destruct x
  | |- never _ (bind _ _) =>
      apply never_bind;
      [ first [ solve [ auto ] | host_never ] | intros ]
  | |- never _ (raise _) => unfold never; simpl; congruence
  | |- never _ (ret _) => unfold never; simpl; discriminate
  | |- never _ _ => solve [ auto ]
  end.

Section Never.

Variable bad : exn.
Variable has : Expr -> bool.
Variable ev : Expr -> State -> M result.
Hypothesis bad_not_type_fault : bad <> InterpTypeError.
Hypothesis ev_never : forall e s, has e = false -> never bad (ev e s).

Lemma for_exprs_never (exprs : list Expr) (last : result) :
  existsb has exprs = false -> never bad (for_exprs ev exprs last).
Proof.
  revert last. induction exprs as [ | expr exprs IH]; intros [[v t] s] He.
  - discriminate.
  - simpl in He. apply orb_false_iff in He as [He1 He2]. simpl.
    apply never_bind; auto.
Qed.

Lemma while_True_never (condition body : Expr) (k : nat) (s : State) :
  has condition = false -> has body = false ->
  never bad (while_True ev condition body k s).
Proof.
  intros Hc Hb. revert s. induction k as [ | k IH]; intros s; simpl;
    [ discriminate | ].
  apply never_bind; [ auto | ]. intros [[cv ct] s1].
  destruct (negb (type_eqb ct Boolean));
    [ unfold never; simpl; congruence | ].
  destruct (negb (eq_True cv)); [ discriminate | ].
  apply never_bind; [ auto | ]. intros [[bv bt] s2]. apply IH.
Qed.

End Never.

(** The cases of [evaluate] for an expression free of the nodes that raise
    the exception. *)
Ltac never_cases bad has IH :=
  repeat match goal with
  | H : _ || _ = false |- _ => apply orb_false_iff in H as [? ?]
  end;
  first
    [ apply (for_exprs_never bad has); [ exact IH | assumption ]
    | apply (while_True_never bad has);
      [ discriminate | exact IH | assumption | assumption ]
    | solve [ never_tail ]
    | solve [ apply never_bind; [ auto | intros [[lv lt] s1] ];
              apply never_bind; [ auto | intros [[rv rt] s2] ];
              never_tail ]
    | solve [ apply never_bind; [ auto | intros [[v t] s1] ]; never_tail ] ].

Lemma evaluate_never_InterpSyntaxError (n : nat) :
  forall e s, reads e = false -> never InterpSyntaxError (evaluate n e s).
Proof.
  induction n as [ | n IH]; intros e s He; [ discriminate | ].
  destruct e; simpl in He; try discriminate He; simpl;
    never_cases InterpSyntaxError reads IH.
Qed.

Lemma evaluate_never_ZeroDivisionError (n : nat) :
  forall e s, divides e = false -> never ZeroDivisionError (evaluate n e s).
Proof.
  induction n as [ | n IH]; intros e s He; [ discriminate | ].
  destruct e; simpl in He; try discriminate He; simpl;
    never_cases ZeroDivisionError divides IH.
Qed.

(** ** Runs of small programs *)

Example run_assign_then_read :
  run_stimpl 3 assign_then_read =
  ([], Return (VInt 2, Integer, StateNode "x" (VInt 1, Integer) EmptyState)).
Proof. reflexivity. Qed.

Example run_add_int_string :
  run_stimpl 2 (Add (IntLiteral 1) (StringLiteral "a")) =
  ([], Raise InterpTypeError).
Proof. reflexivity. Qed.

Example run_print_unit :
  run_stimpl 3 (Print (Print Ren)) =
  ([Text "Unit"; Text "Unit"], Return (VNone, Unit, EmptyState)).
Proof. reflexivity. Qed.

Example run_print_then_unbound :
  run_stimpl 3 (Sequence [Print (IntLiteral 3); Variable_ "y"]) =
  ([Formatted (VInt 3)], Raise InterpSyntaxError).
Proof. reflexivity. Qed.

Example run_count_to_five_short_of_fuel :
  run_stimpl 5 count_to_five = ([], OutOfFuel).
Proof. reflexivity. Qed.

Example run_count_to_five :
  run_stimpl 10 count_to_five =
  ([], Return (VBool false, Boolean, counted 5 EmptyState)).
Proof. reflexivity. Qed.

Example run_if_reads_condition_state :
  run_stimpl 4
    (If (Eq (Assign "x" (IntLiteral 1)) (IntLiteral 1))
        (Variable_ "x") Ren) =
  ([], Return (VInt 1, Integer, StateNode "x" (VInt 1, Integer) EmptyState)).
Proof. reflexivity. Qed.

(** * The properties *)

(** C1, as stated, fails from an environment in which [x] is bound with
    another type than Integer: the first assignment raises the type
    fault, whatever the fuel, so no run yields the value 2. *)
Lemma assign_then_read_type_fault :
  exists s : State,
    evaluates assign_then_read s [] (Raise InterpTypeError) /\
    forall o v t s', ~ evaluates assign_then_read s o (Return (v, t, s')).
Proof.
  exists x_is_a_string.
  assert (H : evaluates assign_then_read x_is_a_string []
                (Raise InterpTypeError)).
  { apply (evaluates_intro 3); [ reflexivity | discriminate ]. }
  split; [ exact H | ].
  intros o v t s' H'.
  destruct (evaluates_det _ _ _ _ _ _ H H') as [_ Hr]. discriminate Hr.
Qed.

(** C1 (amended).  Every binary construct evaluates its left operand
    against the incoming state and its right operand against the state the
    left one returned; what follows depends on the two results only, prints
    nothing and returns the state the right operand returned.  A sequence
    evaluates its last element against the state returned by the elements
    before it.  So the assignment of [x] is visible to the read that
    follows: from every state in which [x] is unbound or bound with type
    Integer, [assign_then_read] yields the value 2 with type Integer. *)
Theorem operands_threaded_left_to_right :
  (forall mk, In mk binary_constructs ->
     exists k : value -> RuntimeType -> value -> RuntimeType -> State ->
                M result,
       (forall lv lt rv rt s2 o v t s',
          k lv lt rv rt s2 = (o, Return (v, t, s')) -> o = [] /\ s' = s2) /\
       forall n l r s,
         evaluate (S n) (mk l r) s =
         ('(lv, lt, s1) <- evaluate n l s ;;
          '(rv, rt, s2) <- evaluate n r s1 ;;
          k lv lt rv rt s2)) /\
  (forall mk, In mk sequence_constructs ->
     forall n es e s,
       evaluate (S n) (mk (es ++ [e])) s =
       ('(_, _, s1) <- evaluate (S n) (mk es) s ;; evaluate n e s1)) /\
  (forall s,
     get_value s "x" = None \/
     (exists v, get_value s "x" = Some (v, Integer)) ->
     evaluates assign_then_read s []
       (Return (VInt 2, Integer, set_value s "x" (VInt 1) Integer))).
Proof.
  split; [ | split ].
  - intros mk Hmk. simpl in Hmk.
    repeat (destruct Hmk as [<- | Hmk]); try contradiction;
      (eexists; split;
       [ | intros n l r s; simpl; apply bind_ext; intros [[lv lt] s1];
           apply bind_ext; intros [[rv rt] s2];
           match goal with
           | |- _ = ?k lv lt rv rt s2 =>
               instantiate (1 := fun lv lt rv rt s2 => _) ; reflexivity
           end ]).
    all: simpl; intros lv lt rv rt s2 o v t s'.
    all: unfold py_and, py_or;
      destruct lt, rt; simpl; try discriminate;
      destruct lv, rv; simpl; try discriminate;
      case_tests; intros H; inversion H; auto.
  - intros mk Hmk n es e s. simpl in Hmk.
    destruct Hmk as [<- | [<- | []]]; simpl;
      rewrite for_exprs_app; apply bind_ext; intros [[v t] s1]; simpl;
      apply bind_ret_r.
  - intros s Hx. apply (evaluates_intro 3); [ | discriminate ].
    unfold assign_then_read. simpl.
    destruct Hx as [Hx | [v Hx]]; rewrite Hx; reflexivity.
Qed.

Lemma operands_threaded_left_to_right_witness :
  evaluates assign_then_read EmptyState []
    (Return (VInt 2, Integer, set_value EmptyState "x" (VInt 1) Integer)).
Proof.
  apply (proj2 (proj2 operands_threaded_left_to_right)).
  left. reflexivity.
Defined.

(** C2.  On two operands that return Boolean values [a] and [b], [Gte]
    returns the order comparison [a >= b] (with false below true), but
    [Lte] returns the equality [a == b], not [a <= b]: its Boolean case
    compares with [==].  Both return type Boolean and the state of the
    right operand. *)
Theorem Lte_on_Booleans_is_equality :
  forall l r s o1 a s1 o2 b s2,
    evaluates l s o1 (Return (VBool a, Boolean, s1)) ->
    evaluates r s1 o2 (Return (VBool b, Boolean, s2)) ->
    evaluates (Lte l r) s (o1 ++ o2)
      (Return (VBool (Bool.eqb a b), Boolean, s2)) /\
    evaluates (Gte l r) s (o1 ++ o2)
      (Return (VBool (implb b a), Boolean, s2)).
Proof.
  intros l r s o1 a s1 o2 b s2 Hl Hr. split.
  - eval_binary Hl Hr.
  - eval_binary Hl Hr. destruct a, b; reflexivity.
Qed.

(** [lte(bool(false), bool(true))] returns false. *)
Lemma Lte_false_true_is_false :
  evaluates (BooleanLiteral false) EmptyState []
    (Return (VBool false, Boolean, EmptyState)) /\
  evaluates (BooleanLiteral true) EmptyState []
    (Return (VBool true, Boolean, EmptyState)) /\
  evaluates (Lte (BooleanLiteral false) (BooleanLiteral true)) EmptyState []
    (Return (VBool false, Boolean, EmptyState)).
Proof.
  assert (Hl : evaluates (BooleanLiteral false) EmptyState []
                 (Return (VBool false, Boolean, EmptyState)))
    by (apply (evaluates_intro 1); [ reflexivity | discriminate ]).
  assert (Hr : evaluates (BooleanLiteral true) EmptyState []
                 (Return (VBool true, Boolean, EmptyState)))
    by (apply (evaluates_intro 1); [ reflexivity | discriminate ]).
  split; [ exact Hl | split; [ exact Hr | ] ].
  exact (proj1 (Lte_on_Booleans_is_equality _ _ _ _ _ _ _ _ _ Hl Hr)).
Defined.

(** C3.  [assign(name, valueExpr)] evaluates [valueExpr] first, giving
    [(v, vt, env1)].  When [name] is bound in [env1] with a type other
    than [vt] it raises the type fault (a raise holds no state: no binding
    is added); otherwise it returns [(v, vt)] and [env1] extended at the
    head with [(name, v, vt)].  An exception of [valueExpr] is the
    exception of the assignment.  From every state,
    [assign_int_then_string] raises the type fault. *)
Theorem Assign_checks_type_then_extends :
  forall name valueExpr env o,
    (forall v vt env1,
       evaluates valueExpr env o (Return (v, vt, env1)) ->
       (forall ev et,
          get_value env1 name = Some (ev, et) -> et <> vt ->
          evaluates (Assign name valueExpr) env o (Raise InterpTypeError)) /\
       (get_value env1 name = None \/
        (exists ev, get_value env1 name = Some (ev, vt)) ->
        evaluates (Assign name valueExpr) env o
          (Return (v, vt, StateNode name (v, vt) env1)))) /\
    (forall ex,
       evaluates valueExpr env o (Raise ex) ->
       evaluates (Assign name valueExpr) env o (Raise ex)) /\
    evaluates assign_int_then_string env [] (Raise InterpTypeError).
Proof.
  intros name valueExpr env o. split; [ | split ].
  - intros v vt env1 H. split.
    + intros ev et Hget Hne. eval_unary H. rewrite Hget. simpl.
      destruct (type_eqb vt et) eqn:Ht; simpl; rewrite app_nil_r.
      * apply type_eqb_eq in Ht. congruence.
      * reflexivity.
    + intros [Hget | [ev Hget]]; eval_unary H; rewrite Hget; simpl.
      * rewrite app_nil_r. reflexivity.
      * rewrite type_eqb_refl. simpl. rewrite app_nil_r. reflexivity.
  - intros ex H. eval_unary H.
  - apply (evaluates_intro 3); [ | discriminate ].
    unfold assign_int_then_string. simpl.
    destruct (get_value env "x") as [[v t] | ]; [ destruct t | ]; reflexivity.
Qed.

Lemma Assign_checks_type_then_extends_witness :
  evaluates (Assign "x" (StringLiteral "a"))
    (StateNode "x" (VInt 1, Integer) EmptyState) []
    (Raise InterpTypeError).
Proof.
  refine (proj1 (proj1 (Assign_checks_type_then_extends
                          "x" (StringLiteral "a")
                          (StateNode "x" (VInt 1, Integer) EmptyState) [])
                   (VStr "a") String
                   (StateNode "x" (VInt 1, Integer) EmptyState) _)
            (VInt 1) Integer _ _).
  - apply (evaluates_intro 1); [ reflexivity | discriminate ].
  - reflexivity.
  - discriminate.
Defined.

(** C4.  When both operands return the Unit value, [Eq], [Lte] and [Gte]
    return true and [Ne], [Lt] and [Gt] return false, with type Boolean
    and the state of the right operand; none raises. *)
Theorem Unit_comparisons :
  forall l r s o1 s1 o2 s2,
    evaluates l s o1 (Return (VNone, Unit, s1)) ->
    evaluates r s1 o2 (Return (VNone, Unit, s2)) ->
    evaluates (Eq l r) s (o1 ++ o2) (Return (VBool true, Boolean, s2)) /\
    evaluates (Lte l r) s (o1 ++ o2) (Return (VBool true, Boolean, s2)) /\
    evaluates (Gte l r) s (o1 ++ o2) (Return (VBool true, Boolean, s2)) /\
    evaluates (Ne l r) s (o1 ++ o2) (Return (VBool false, Boolean, s2)) /\
    evaluates (Lt l r) s (o1 ++ o2) (Return (VBool false, Boolean, s2)) /\
    evaluates (Gt l r) s (o1 ++ o2) (Return (VBool false, Boolean, s2)).
Proof.
  intros l r s o1 s1 o2 s2 Hl Hr.
  repeat match goal with |- _ /\ _ => split end; eval_binary Hl Hr.
Qed.

Lemma Unit_comparisons_witness :
  evaluates (Eq Ren (Sequence [])) EmptyState []
    (Return (VBool true, Boolean, EmptyState)) /\
  evaluates (Ne Ren (Sequence [])) EmptyState []
    (Return (VBool false, Boolean, EmptyState)) /\
  evaluates (Lt Ren (Sequence [])) EmptyState []
    (Return (VBool false, Boolean, EmptyState)).
Proof.
  assert (Hl : evaluates Ren EmptyState [] (Return (VNone, Unit, EmptyState)))
    by (apply (evaluates_intro 1); [ reflexivity | discriminate ]).
  assert (Hr : evaluates (Sequence []) EmptyState []
                 (Return (VNone, Unit, EmptyState)))
    by (apply (evaluates_intro 1); [ reflexivity | discriminate ]).
  pose proof (Unit_comparisons _ _ _ _ _ _ _ Hl Hr) as H.
  split; [ apply H | split; apply H ].
Defined.

(** C5.  [while(c, body)] evaluates [c] against the current state.  When
    the value of [c] is not true (its type being Boolean) the loop ends
    and returns what [c] returned; when it is true the body is evaluated
    against the state of [c] and the loop goes on from the state of the
    body, whose value and type are dropped; when the type of [c] is not
    Boolean the loop raises the type fault.  An exception of [c] or of the
    body ends the loop.  From every state in which [i] is unbound or bound
    with type Integer, [count_to_five] ends with [i] bound to 5 with type
    Integer. *)
Theorem While_loop :
  forall c body s o1,
    (forall cv s1,
       evaluates c s o1 (Return (cv, Boolean, s1)) ->
       eq_True cv = false ->
       evaluates (While c body) s o1 (Return (cv, Boolean, s1))) /\
    (forall cv s1 o2 bv bt s2 o3 r,
       evaluates c s o1 (Return (cv, Boolean, s1)) ->
       eq_True cv = true ->
       evaluates body s1 o2 (Return (bv, bt, s2)) ->
       evaluates (While c body) s2 o3 r ->
       evaluates (While c body) s (o1 ++ o2 ++ o3) r) /\
    (forall cv ct s1,
       evaluates c s o1 (Return (cv, ct, s1)) ->
       ct <> Boolean ->
       evaluates (While c body) s o1 (Raise InterpTypeError)) /\
    (forall ex,
       evaluates c s o1 (Raise ex) ->
       evaluates (While c body) s o1 (Raise ex)) /\
    (forall cv s1 o2 ex,
       evaluates c s o1 (Return (cv, Boolean, s1)) ->
       eq_True cv = true ->
       evaluates body s1 o2 (Raise ex) ->
       evaluates (While c body) s (o1 ++ o2) (Raise ex)) /\
    (get_value s "i" = None \/
     (exists v, get_value s "i" = Some (v, Integer)) ->
     evaluates count_to_five s []
       (Return (VBool false, Boolean, counted 5 s)) /\
     get_value (counted 5 s) "i" = Some (VInt 5, Integer)).
Proof.
  intros c body s o1.
  repeat match goal with |- _ /\ _ => split end.
  - intros cv s1 Hc Hcv.
    apply evaluates_fuel_S in Hc as [n Hc]. specialize (Hc n (Nat.le_refl n)).
    apply (evaluates_intro (S (S n))); [ | discriminate ].
    rewrite evaluate_While, while_True_S, Hc. simpl. rewrite Hcv. simpl.
    rewrite app_nil_r. reflexivity.
  - intros cv s1 o2 bv bt s2 o3 r Hc Hcv Hb [Hr [n3 Hw]].
    common_fuel Hc Hb k.
    destruct n3 as [ | n3]; [ apply evaluate_O in Hw; contradiction | ].
    rewrite evaluate_While in Hw.
    set (K := Nat.max k n3).
    apply (evaluate_fuel_mono _ (S K)) in Hc; [ | discriminate | lia ].
    apply (evaluate_fuel_mono _ (S K)) in Hb; [ | discriminate | lia ].
    apply (while_True_more_fuel _ (S K) _ K) in Hw;
      [ | exact Hr | lia | lia ].
    apply (evaluates_intro (S (S K))); [ | exact Hr ].
    rewrite evaluate_While, while_True_S.
    remember (evaluate (S K)) as ev.
    rewrite Hc. simpl. rewrite Hcv. simpl.
    rewrite Hb. simpl. rewrite Hw. reflexivity.
  - intros cv ct s1 Hc Hct.
    apply evaluates_fuel_S in Hc as [n Hc]. specialize (Hc n (Nat.le_refl n)).
    apply (evaluates_intro (S (S n))); [ | discriminate ].
    rewrite evaluate_While, while_True_S, Hc. simpl.
    destruct (type_eqb ct Boolean) eqn:Ht;
      [ apply type_eqb_eq in Ht; contradiction | ].
    simpl. rewrite app_nil_r. reflexivity.
  - intros ex Hc.
    apply evaluates_fuel_S in Hc as [n Hc]. specialize (Hc n (Nat.le_refl n)).
    apply (evaluates_intro (S (S n))); [ | discriminate ].
    rewrite evaluate_While, while_True_S, Hc. reflexivity.
  - intros cv s1 o2 ex Hc Hcv Hb.
    common_fuel Hc Hb k.
    apply (evaluate_fuel_mono _ (S k)) in Hc; [ | discriminate | lia ].
    apply (evaluate_fuel_mono _ (S k)) in Hb; [ | discriminate | lia ].
    apply (evaluates_intro (S (S k))); [ | discriminate ].
    rewrite evaluate_While, while_True_S.
    remember (evaluate (S k)) as ev.
    rewrite Hc. simpl. rewrite Hcv. simpl.
    rewrite Hb. reflexivity.
  - intros Hi. split; [ | reflexivity ].
    apply (evaluates_intro 10); [ | discriminate ].
    unfold count_to_five. simpl.
    destruct Hi as [Hi | [v Hi]]; rewrite Hi; reflexivity.
Qed.

Lemma While_loop_witness :
  evaluates count_to_five EmptyState []
    (Return (VBool false, Boolean, counted 5 EmptyState)) /\
  get_value (counted 5 EmptyState) "i" = Some (VInt 5, Integer).
Proof.
  apply (While_loop Ren Ren EmptyState []).
  left. reflexivity.
Defined.

(** C6.  [variable(name)] returns the value and the type of the most
    recent binding of [name], the one with no binding of [name] above it
    in the chain, and the state it was given, printing nothing.  When the
    chain holds no binding of [name], as the empty state does, it raises
    the syntax fault and returns nothing. *)
Theorem Variable_reads_most_recent_binding :
  forall name env,
    (forall v t newer older,
       bindings env = newer ++ (name, (v, t)) :: older ->
       Forall (fun b => fst b <> name) newer ->
       evaluates (Variable_ name) env [] (Return (v, t, env))) /\
    (Forall (fun b => fst b <> name) (bindings env) ->
     evaluates (Variable_ name) env [] (Raise InterpSyntaxError) /\
     forall o r, ~ evaluates (Variable_ name) env o (Return r)) /\
    evaluates (Variable_ name) EmptyState [] (Raise InterpSyntaxError).
Proof.
  intros name env. split; [ | split ].
  - intros v t newer older Hb Hnew.
    assert (Hg : get_value env name = Some (v, t))
      by (apply get_value_Some_iff; eauto).
    apply (evaluates_intro 1); [ | discriminate ].
    simpl. rewrite Hg. reflexivity.
  - intros Hall. apply get_value_None_iff in Hall.
    assert (H : evaluates (Variable_ name) env [] (Raise InterpSyntaxError)).
    { apply (evaluates_intro 1); [ | discriminate ].
      simpl. rewrite Hall. reflexivity. }
    split; [ exact H | ].
    intros o r H'. destruct (evaluates_det _ _ _ _ _ _ H H') as [_ Hr].
    discriminate Hr.
  - apply (evaluates_intro 1); [ reflexivity | discriminate ].
Qed.

Lemma Variable_reads_most_recent_binding_witness :
  evaluates (Variable_ "x")
    (StateNode "y" (VBool true, Boolean)
       (StateNode "x" (VInt 2, Integer)
          (StateNode "x" (VInt 1, Integer) EmptyState))) []
    (Return (VInt 2, Integer,
             StateNode "y" (VBool true, Boolean)
               (StateNode "x" (VInt 2, Integer)
                  (StateNode "x" (VInt 1, Integer) EmptyState)))).
Proof.
  apply (proj1 (Variable_reads_most_recent_binding "x" _)
           (VInt 2) Integer
           [("y"%string, (VBool true, Boolean))]
           [("x"%string, (VInt 1, Integer))]).
  - reflexivity.
  - constructor; [ discriminate | constructor ].
Defined.

(** C7.  The environment is persistent.  In a store whose chains are well
    formed, [set_value] on the object [env] allocates one new object,
    with the given name, value and type and with [env] as its
    [next_state]; every object that existed is unchanged, so the lookup of
    any name from [env] answers after the extension what it answered
    before, and from the new object the lookup of the new name answers
    the new value.  The lookup from [env] ends and returns the first
    binding of the name on the chain from [env], newest first, or nothing
    when it reaches the empty object without one. *)
Theorem set_value_allocates_and_get_value_is_unchanged :
  forall (h : Store.store) (env : Store.loc) name v t,
    Store.well_formed h -> (env < length h)%nat ->
    let h2 := fst (Store.set_value h env name v t) in
    let env2 := snd (Store.set_value h env name v t) in
    (forall l, (l < length h)%nat -> nth_error h2 l = nth_error h l) /\
    env2 = length h /\
    nth_error h2 env2 = Some (Store.StateObject name (v, t) env) /\
    Store.well_formed h2 /\
    exists s,
      Store.chain h env = Some s /\
      Store.chain h2 env = Some s /\
      Store.chain h2 env2 = Some (set_value s name v t) /\
      Store.get_value h2 env2 name = Some (Some (v, t)) /\
      forall x,
        Store.get_value h env x = Some (get_value s x) /\
        Store.get_value h2 env x = Some (get_value s x) /\
        (forall vt,
           get_value s x = Some vt <->
           exists newer older,
             bindings s = newer ++ (x, vt) :: older /\
             Forall (fun b => fst b <> x) newer) /\
        (get_value s x = None <->
         Forall (fun b => fst b <> x) (bindings s)).
Proof.
  intros h env name v t Hwf Henv h2 env2.
  destruct (chain_total h env Hwf Henv) as [s Hs].
  assert (Hs2 : Store.chain h2 env = Some s).
  { unfold Store.chain, h2. simpl.
    eapply chain_loop_extend; [ exact Hs | ].
    rewrite length_app. simpl. lia. }
  assert (Hnew : Store.chain h2 env2 = Some (set_value s name v t)).
  { unfold Store.chain, h2, env2. simpl. rewrite length_app. simpl.
    rewrite Nat.add_1_r. simpl.
    rewrite nth_error_app2 by lia. rewrite Nat.sub_diag. simpl.
    rewrite (chain_loop_extend h _ (length h) (length h) env s Hs)
      by lia.
    reflexivity. }
  split; [ intros l Hl; apply alloc_keeps; exact Hl | ].
  split; [ reflexivity | ].
  split; [ apply alloc_new | ].
  split; [ apply set_value_well_formed; assumption | ].
  exists s. split; [ exact Hs | ]. split; [ exact Hs2 | ].
  split; [ exact Hnew | ].
  split.
  { unfold Store.get_value.
    rewrite (get_value_loop_chain _ name _ _ _ Hnew). simpl.
    rewrite String.eqb_refl. reflexivity. }
  intros x. split; [ | split; [ | split ] ].
  - apply get_value_loop_chain. exact Hs.
  - apply get_value_loop_chain. exact Hs2.
  - intros vt. apply get_value_Some_iff.
  - apply get_value_None_iff.
Qed.

Lemma set_value_allocates_and_get_value_is_unchanged_witness :
  Store.get_value
    (fst (Store.set_value store_with_y 1%nat "x" (VInt 1) Integer))
    1%nat "x" =
  Store.get_value store_with_y 1%nat "x" /\
  Store.get_value
    (fst (Store.set_value store_with_y 1%nat "x" (VInt 1) Integer))
    2%nat "x" = Some (Some (VInt 1, Integer)).
Proof.
  assert (Hwf : Store.well_formed store_with_y).
  { apply set_value_well_formed;
      [ apply new_EmptyState_well_formed, well_formed_nil
      | apply Nat.lt_0_succ ]. }
  destruct (set_value_allocates_and_get_value_is_unchanged
              store_with_y 1%nat "x" (VInt 1) Integer Hwf
              (Nat.lt_succ_diag_r 1))
    as (_ & _ & _ & _ & s & _ & _ & _ & Hget & Hx).
  split; [ | exact Hget ].
  destruct (Hx "x"%string) as (H1 & H2 & _).
  rewrite H1, H2. reflexivity.
Defined.

(** C8.  A sequence (or program) with no expression returns the absent
    value with type Unit and the state it was given.  Otherwise the
    elements are evaluated in order, each against the state returned by
    the elements before it, and the sequence ends as its last element
    does; when an element raises, the sequence raises the same exception
    with nothing after that element evaluated. *)
Theorem Sequence_ends_as_its_last_element :
  forall mk, In mk sequence_constructs ->
  forall s,
    evaluates (mk []) s [] (Return (VNone, Unit, s)) /\
    (forall es e o1 v t s1 o2 r,
       evaluates (mk es) s o1 (Return (v, t, s1)) ->
       evaluates e s1 o2 r ->
       evaluates (mk (es ++ [e])) s (o1 ++ o2) r) /\
    (forall es es' o ex,
       evaluates (mk es) s o (Raise ex) ->
       evaluates (mk (es ++ es')) s o (Raise ex)).
Proof.
  intros mk Hmk s.
  assert (Hmk' : forall n es st,
             evaluate (S n) (mk es) st =
             for_exprs (evaluate n) es (VNone, Unit, st)).
  { simpl in Hmk. destruct Hmk as [<- | [<- | []]]; reflexivity. }
  split; [ | split ].
  - apply (evaluates_intro 1); [ | discriminate ].
    rewrite Hmk'. reflexivity.
  - intros es e o1 v t s1 o2 r Hes [Hr [n2 He]].
    apply evaluates_fuel_S in Hes as [n1 Hes].
    specialize (Hes (Nat.max n1 n2) ltac:(lia)).
    apply (evaluate_fuel_mono _ (Nat.max n1 n2)) in He;
      [ | exact Hr | lia ].
    apply (evaluates_intro (S (Nat.max n1 n2))); [ | exact Hr ].
    rewrite Hmk' in *. rewrite for_exprs_app, Hes. simpl.
    rewrite He. simpl. destruct r; rewrite ?app_nil_r; reflexivity.
  - intros es es' o ex Hes.
    apply evaluates_fuel_S in Hes as [n Hes].
    specialize (Hes n (Nat.le_refl n)).
    apply (evaluates_intro (S n)); [ | discriminate ].
    rewrite Hmk' in *. rewrite for_exprs_app, Hes. reflexivity.
Qed.

Lemma Sequence_ends_as_its_last_element_witness :
  evaluates (Sequence []) EmptyState [] (Return (VNone, Unit, EmptyState)) /\
  evaluates (Sequence ([] ++ [IntLiteral 3])) EmptyState []
    (Return (VInt 3, Integer, EmptyState)).
Proof.
  pose proof (Sequence_ends_as_its_last_element Sequence
                (or_introl eq_refl) EmptyState) as [H0 [Hlast _]].
  split; [ exact H0 | ].
  apply (Hlast [] (IntLiteral 3) [] VNone Unit EmptyState []); [ exact H0 | ].
  apply (evaluates_intro 1); [ reflexivity | discriminate ].
Defined.

(** C9.  On two Integer operands [divide] returns the floor division of
    the values with type Integer: the quotient [q] with a remainder of the
    sign of the divisor, smaller than it.  On two FloatingPoint operands
    it returns the IEEE quotient with type FloatingPoint.  A divisor equal
    to zero raises the host's [ZeroDivisionError], which is neither of the
    interpreter's two exceptions.  [divide(int(7), int(2))] is 3 and
    [divide(float(7.0), float(2.0))] is 3.5. *)
Theorem Divide_floor_and_true_division :
  forall l r s o1 s1 o2 s2,
    (forall a b,
       evaluates l s o1 (Return (VInt a, Integer, s1)) ->
       evaluates r s1 o2 (Return (VInt b, Integer, s2)) ->
       (b <> 0 ->
        evaluates (Divide l r) s (o1 ++ o2)
          (Return (VInt (a / b), Integer, s2)) /\
        exists rem, a = b * (a / b) + rem /\
                    (0 <= rem < b \/ b < rem <= 0)) /\
       (b = 0 ->
        evaluates (Divide l r) s (o1 ++ o2) (Raise ZeroDivisionError))) /\
    (forall a b,
       evaluates l s o1 (Return (VFloat a, FloatingPoint, s1)) ->
       evaluates r s1 o2 (Return (VFloat b, FloatingPoint, s2)) ->
       (PrimFloat.eqb b 0%float = false ->
        evaluates (Divide l r) s (o1 ++ o2)
          (Return (VFloat (PrimFloat.div a b), FloatingPoint, s2))) /\
       (PrimFloat.eqb b 0%float = true ->
        evaluates (Divide l r) s (o1 ++ o2) (Raise ZeroDivisionError))) /\
    evaluates (Divide (IntLiteral 7) (IntLiteral 2)) s []
      (Return (VInt 3, Integer, s)) /\
    evaluates (Divide (FloatingPointLiteral 7) (FloatingPointLiteral 2)) s []
      (Return (VFloat 3.5, FloatingPoint, s)) /\
    evaluates (Divide (IntLiteral 7) (IntLiteral 0)) s []
      (Raise ZeroDivisionError) /\
    ZeroDivisionError <> InterpSyntaxError /\
    ZeroDivisionError <> InterpTypeError.
Proof.
  intros l r s o1 s1 o2 s2.
  repeat match goal with |- _ /\ _ => split end; try discriminate;
    try (apply (evaluates_intro 2); [ reflexivity | discriminate ]).
  - intros a b Hl Hr. split; intros Hb.
    + split.
      * eval_binary Hl Hr. apply Z.eqb_neq in Hb. rewrite Hb. simpl.
        rewrite app_nil_r. reflexivity.
      * exists (a mod b). split; [ apply Z.div_mod; exact Hb | ].
        destruct (Z_lt_le_dec 0 b) as [Hpos | Hneg].
        -- left. apply Z.mod_pos_bound. exact Hpos.
        -- right. apply Z.mod_neg_bound. lia.
    + subst b. eval_binary Hl Hr.
  - intros a b Hl Hr. split; intros Hb; eval_binary Hl Hr;
      rewrite Hb; simpl; rewrite ?app_nil_r; reflexivity.
Qed.

Lemma Divide_floor_and_true_division_witness :
  evaluates (Divide (IntLiteral (-7)) (IntLiteral 2)) EmptyState []
    (Return (VInt (-4), Integer, EmptyState)).
Proof.
  refine (proj1 (proj1 (proj1 (Divide_floor_and_true_division
                                 (IntLiteral (-7)) (IntLiteral 2)
                                 EmptyState [] EmptyState [] EmptyState)
                          (-7) 2 _ _) _)).
  - apply (evaluates_intro 1); [ reflexivity | discriminate ].
  - apply (evaluates_intro 1); [ reflexivity | discriminate ].
  - discriminate.
Defined.

(** C10.  [and] and [or] do not short-circuit.  When the left operand
    returns a Boolean, the right operand is evaluated against the state the
    left one returned, whatever the left value is: when it returns a
    Boolean the result is the conjunction (disjunction) with the state of
    the right operand, also when the left value is false for [and] or true
    for [or]; when it returns another type the type fault is raised; when
    it raises, that exception is raised; and no [and] or [or] ends unless
    its right operand has ended. *)
Theorem And_Or_evaluate_both_operands :
  forall l r s o1 a s1,
    evaluates l s o1 (Return (VBool a, Boolean, s1)) ->
    (forall o2 b s2,
       evaluates r s1 o2 (Return (VBool b, Boolean, s2)) ->
       evaluates (And l r) s (o1 ++ o2)
         (Return (VBool (a && b), Boolean, s2)) /\
       evaluates (Or l r) s (o1 ++ o2)
         (Return (VBool (a || b), Boolean, s2))) /\
    (forall o2 rv rt s2,
       evaluates r s1 o2 (Return (rv, rt, s2)) ->
       rt <> Boolean ->
       evaluates (And l r) s (o1 ++ o2) (Raise InterpTypeError) /\
       evaluates (Or l r) s (o1 ++ o2) (Raise InterpTypeError)) /\
    (forall o2 ex,
       evaluates r s1 o2 (Raise ex) ->
       evaluates (And l r) s (o1 ++ o2) (Raise ex) /\
       evaluates (Or l r) s (o1 ++ o2) (Raise ex)) /\
    (forall o res,
       evaluates (And l r) s o res \/ evaluates (Or l r) s o res ->
       exists o2 r2, evaluates r s1 o2 r2 /\ o = o1 ++ o2).
Proof.
  intros l r s o1 a s1 Hl.
  repeat match goal with |- _ /\ _ => split end.
  - intros o2 b s2 Hr. split; eval_binary Hl Hr; destruct a; reflexivity.
  - intros o2 rv rt s2 Hr Hrt.
    split; eval_binary Hl Hr;
      destruct rt; simpl; rewrite ?app_nil_r; try reflexivity; congruence.
  - intros o2 ex Hr. split; eval_binary Hl Hr.
  - intros o res H.
    destruct H as [[Hres [n H]] | [Hres [n H]]];
      (destruct n as [ | n]; [ apply evaluate_O in H; contradiction | ]);
      simpl in H;
      destruct (evaluate n l s) as [ol rl] eqn:El;
      destruct (evaluate n r s1) as [o2 r2] eqn:Er;
      (assert (Hrl : rl <> OutOfFuel)
         by (intros ->; simpl in H; inversion H; subst; contradiction));
      destruct (evaluates_det _ _ _ _ _ _ Hl (evaluates_intro _ _ _ _ _ El Hrl))
        as [<- <-];
      simpl in H; rewrite Er in H;
      (assert (Hr2 : r2 <> OutOfFuel)
         by (intros ->; simpl in H; inversion H; subst; contradiction));
      exists o2, r2;
      (split; [ eapply evaluates_intro; eassumption | ]);
      destruct r2 as [[[rv rt] s2] | ex | ]; simpl in H;
      try contradiction;
      try (destruct rt; simpl in H);
      inversion H; rewrite ?app_nil_r; reflexivity.
Qed.

Lemma And_Or_evaluate_both_operands_witness :
  evaluates false_and_assign EmptyState []
    (Return (VBool false, Boolean,
             StateNode "x" (VBool true, Boolean) EmptyState)).
Proof.
  refine (proj1 (proj1 (And_Or_evaluate_both_operands
                          (BooleanLiteral false)
                          (Assign "x" (BooleanLiteral true))
                          EmptyState [] false EmptyState _)
                   [] true (StateNode "x" (VBool true, Boolean) EmptyState)
                   _)).
  - apply (evaluates_intro 1); [ reflexivity | discriminate ].
  - apply (evaluates_intro 2); [ reflexivity | discriminate ].
Defined.

(** * Further properties *)

(** X1.  From a state in which every binding holds a value of its type,
    an evaluation that returns gives a value of the type it returns and
    a state that is well typed again, and an evaluation that raises does
    not raise the host's [TypeError]: no operator is applied to operands
    it has no meaning for. *)
Theorem evaluation_is_type_safe :
  forall e s o r,
    well_typed s = true ->
    evaluates e s o r ->
    match r with
    | Return (v, t, s') => has_type v t = true /\ well_typed s' = true
    | Raise ex => ex <> TypeError
    | OutOfFuel => False
    end.
Proof.
  intros e s o r Hs [Hr [n H]].
  pose proof (evaluate_well_typed n e s Hs) as Hwt.
  unfold sat in Hwt. rewrite H in Hwt. simpl in Hwt.
  destruct r as [[[v t] s'] | ex | ].
  - exact Hwt.
  - intros ->. exact Hwt.
  - apply Hr. reflexivity.
Qed.

Lemma evaluation_is_type_safe_witness :
  has_type (VBool false) Boolean = true /\
  well_typed (counted 5 EmptyState) = true.
Proof.
  apply (evaluation_is_type_safe count_to_five EmptyState []
           (Return (VBool false, Boolean, counted 5 EmptyState))).
  - reflexivity.
  - runs 10%nat.
Defined.

(** X2.  The state [evaluate] returns is the state it was given with
    bindings added on top: no binding is removed or changed. *)
Theorem evaluate_only_adds_bindings :
  forall e s o v t s',
    evaluates e s o (Return (v, t, s')) ->
    exists newer, bindings s' = newer ++ bindings s.
Proof.
  intros e s o v t s' H.
  apply (on_return_evaluates (P := fun r => extends s (state_of r)) e s o _)
    in H; [ exact H | ].
  intros n. apply evaluate_related.
  - apply extends_refl.
  - apply extends_trans.
  - intros. apply extends_set_value.
Qed.

Lemma evaluate_only_adds_bindings_witness :
  exists newer, bindings (counted 5 x_is_one) = newer ++ bindings x_is_one.
Proof.
  apply (evaluate_only_adds_bindings count_to_five x_is_one []
           (VBool false) Boolean).
  runs 10%nat.
Defined.

(** X3.  A variable that is bound when the evaluation starts is bound when
    it returns, with the same type: whatever is assigned in between, the
    test of [Assign] lets no other type through. *)
Theorem evaluate_keeps_the_type_of_a_variable :
  forall e s o v t s' x vx tx,
    evaluates e s o (Return (v, t, s')) ->
    get_value s x = Some (vx, tx) ->
    exists vx', get_value s' x = Some (vx', tx).
Proof.
  intros e s o v t s' x vx tx H Hx.
  apply (on_return_evaluates (P := fun r => keeps_types s (state_of r)) e s o _)
    in H; [ exact (H _ _ _ Hx) | ].
  intros n. apply evaluate_related.
  - apply keeps_types_refl.
  - apply keeps_types_trans.
  - intros. apply keeps_types_set_value. assumption.
Qed.

Lemma evaluate_keeps_the_type_of_a_variable_witness :
  exists vx',
    get_value (set_value x_is_one "x" (VInt 2) Integer) "x" =
    Some (vx', Integer).
Proof.
  apply (evaluate_keeps_the_type_of_a_variable
           (Assign "x" (IntLiteral 2)) x_is_one [] (VInt 2) Integer
           (set_value x_is_one "x" (VInt 2) Integer) "x" (VInt 1) Integer).
  - runs 2%nat.
  - reflexivity.
Defined.

(** X4.  An expression with no [Assign] node returns the state it was
    given: only assignment extends the state. *)
Theorem evaluation_without_Assign_returns_its_state :
  forall e s o v t s',
    assigns e = false ->
    evaluates e s o (Return (v, t, s')) ->
    s' = s.
Proof.
  intros e s o v t s' He H.
  apply (on_return_evaluates (P := fun r => state_of r = s) e s o _) in H;
    [ exact H | ].
  intros n. apply evaluate_same. exact He.
Qed.

Lemma evaluation_without_Assign_returns_its_state_witness :
  evaluates (Add (Variable_ "x") (IntLiteral 1)) x_is_one []
    (Return (VInt 2, Integer, x_is_one)) /\
  x_is_one = x_is_one.
Proof.
  assert (H : evaluates (Add (Variable_ "x") (IntLiteral 1)) x_is_one []
                (Return (VInt 2, Integer, x_is_one))) by (runs 2%nat).
  split; [ exact H | ].
  exact (evaluation_without_Assign_returns_its_state
           (Add (Variable_ "x") (IntLiteral 1)) x_is_one []
           (VInt 2) Integer x_is_one eq_refl H).
Defined.

(** X5.  [run_stimpl] starts from the empty state, so when it returns,
    the value has the type returned, every binding of the final state
    holds a value of its type, and all the bindings of one name have one
    type. *)
Theorem run_stimpl_final_state :
  forall n program o v t s,
    run_stimpl n program = (o, Return (v, t, s)) ->
    has_type v t = true /\ well_typed s = true /\ one_type_per_name s.
Proof.
  intros n program o v t s H. unfold run_stimpl in H.
  pose proof (evaluate_well_typed n program EmptyState eq_refl) as Hwt.
  unfold sat in Hwt. rewrite H in Hwt. destruct Hwt as [Hv Hs].
  split; [ exact Hv | split; [ exact Hs | ] ].
  pose proof (evaluate_related
                (fun s s' => one_type_per_name s -> one_type_per_name s')
                (fun _ H => H)
                (fun _ _ _ H1 H2 H => H2 (H1 H))
                (fun s name v t Ha Hs => one_type_per_name_set_value s name v t Ha Hs)
                n program EmptyState) as Hrel.
  unfold on_return in Hrel. rewrite H in Hrel. simpl in Hrel.
  apply Hrel. intros x v1 t1 v2 t2 [].
Qed.

Lemma run_stimpl_final_state_witness :
  has_type (VBool false) Boolean = true /\
  well_typed (counted 5 EmptyState) = true /\
  one_type_per_name (counted 5 EmptyState).
Proof.
  apply (run_stimpl_final_state 10 count_to_five []).
  reflexivity.
Defined.

(** X6.  [print(e)] writes one line after what [e] wrote, the text
    [Unit] for the type Unit and the text of the value otherwise, and
    returns what [e] returned; when [e] raises, nothing is written and the
    exception is raised. *)
Theorem Print_writes_one_line_and_returns_the_result :
  forall e s o,
    (forall v t s',
       evaluates e s o (Return (v, t, s')) ->
       evaluates (Print e) s (o ++ [printed v t]) (Return (v, t, s'))) /\
    (forall ex,
       evaluates e s o (Raise ex) ->
       evaluates (Print e) s o (Raise ex)).
Proof.
  intros e s o. split.
  - intros v t s' H. eval_unary H. destruct t; reflexivity.
  - intros ex H. eval_unary H.
Qed.

Lemma Print_writes_one_line_and_returns_the_result_witness :
  evaluates (Print (IntLiteral 3)) EmptyState [Formatted (VInt 3)]
    (Return (VInt 3, Integer, EmptyState)).
Proof.
  apply (proj1 (Print_writes_one_line_and_returns_the_result
                  (IntLiteral 3) EmptyState [])).
  runs 1%nat.
Defined.

(** X7.  [if(c, t, f)] with a Boolean condition ends as the branch chosen
    by the value of [c] ends, evaluated against the state [c] returned;
    the other branch is not evaluated (nothing is asked of it).  A
    condition of another type raises the type fault, and an exception of
    the condition is raised. *)
Theorem If_evaluates_the_chosen_branch_only :
  forall c tb fb s o1,
    (forall cv s1 o2 r,
       evaluates c s o1 (Return (cv, Boolean, s1)) ->
       evaluates (if eq_True cv then tb else fb) s1 o2 r ->
       evaluates (If c tb fb) s (o1 ++ o2) r) /\
    (forall cv ct s1,
       evaluates c s o1 (Return (cv, ct, s1)) ->
       ct <> Boolean ->
       evaluates (If c tb fb) s o1 (Raise InterpTypeError)) /\
    (forall ex,
       evaluates c s o1 (Raise ex) ->
       evaluates (If c tb fb) s o1 (Raise ex)).
Proof.
  intros c tb fb s o1. split; [ | split ].
  - intros cv s1 o2 r Hc Hb.
    assert (Hr : r <> OutOfFuel) by apply Hb.
    common_fuel Hc Hb k.
    apply (evaluates_intro (S k)); [ | exact Hr ].
    simpl. rewrite Hc. simpl.
    destruct (eq_True cv); rewrite Hb; reflexivity.
  - intros cv ct s1 Hc Hct. eval_unary Hc.
    destruct (type_eqb ct Boolean) eqn:Ht;
      [ apply type_eqb_eq in Ht; contradiction | ].
    simpl. rewrite app_nil_r. reflexivity.
  - intros ex Hc. eval_unary Hc.
Qed.

Lemma If_evaluates_the_chosen_branch_only_witness :
  evaluates (If (BooleanLiteral true) (IntLiteral 1) (Variable_ "y"))
    EmptyState [] (Return (VInt 1, Integer, EmptyState)).
Proof.
  apply (proj1 (If_evaluates_the_chosen_branch_only
                  (BooleanLiteral true) (IntLiteral 1) (Variable_ "y")
                  EmptyState [])
           (VBool true) EmptyState [] (Return (VInt 1, Integer, EmptyState))).
  - runs 1%nat.
  - runs 1%nat.
Defined.

(** X8.  [not(e)] on a Boolean returns the negation in the state [e]
    returned, so [not(not(e))] returns what [e] returned; on another type
    it raises the type fault, and an exception of [e] is raised. *)
Theorem Not_negates_and_twice_is_the_operand :
  forall e s o,
    (forall b s1,
       evaluates e s o (Return (VBool b, Boolean, s1)) ->
       evaluates (Not e) s o (Return (VBool (negb b), Boolean, s1)) /\
       evaluates (Not (Not e)) s o (Return (VBool b, Boolean, s1))) /\
    (forall v t s1,
       evaluates e s o (Return (v, t, s1)) ->
       t <> Boolean ->
       evaluates (Not e) s o (Raise InterpTypeError)) /\
    (forall ex,
       evaluates e s o (Raise ex) ->
       evaluates (Not e) s o (Raise ex)).
Proof.
  intros e s o. split; [ | split ].
  - intros b s1 H.
    assert (H1 : evaluates (Not e) s o (Return (VBool (negb b), Boolean, s1)))
      by (eval_unary H).
    split; [ exact H1 | ].
    eval_unary H1. unfold py_not. simpl. rewrite negb_involutive. reflexivity.
  - intros v t s1 H Ht. eval_unary H.
    destruct (type_eqb t Boolean) eqn:Hb;
      [ apply type_eqb_eq in Hb; contradiction | ].
    simpl. rewrite app_nil_r. reflexivity.
  - intros ex H. eval_unary H.
Qed.

Lemma Not_negates_and_twice_is_the_operand_witness :
  evaluates (Not (BooleanLiteral true)) EmptyState []
    (Return (VBool false, Boolean, EmptyState)) /\
  evaluates (Not (Not (BooleanLiteral true))) EmptyState []
    (Return (VBool true, Boolean, EmptyState)).
Proof.
  apply (proj1 (Not_negates_and_twice_is_the_operand
                  (BooleanLiteral true) EmptyState [])
           true EmptyState).
  runs 1%nat.
Defined.

(** X9.  Every binary construct raises the type fault when its operands
    return different types, after both operands have been evaluated. *)
Theorem binary_constructs_reject_operands_of_two_types :
  forall mk, In mk binary_constructs ->
  forall l r s o1 lv lt s1 o2 rv rt s2,
    evaluates l s o1 (Return (lv, lt, s1)) ->
    evaluates r s1 o2 (Return (rv, rt, s2)) ->
    lt <> rt ->
    evaluates (mk l r) s (o1 ++ o2) (Raise InterpTypeError).
Proof.
  intros mk Hmk l r s o1 lv lt s1 o2 rv rt s2 Hl Hr Hne.
  assert (Ht : type_eqb lt rt = false).
  { destruct (type_eqb lt rt) eqn:Ht; [ | reflexivity ].
    apply type_eqb_eq in Ht. contradiction. }
  simpl in Hmk.
  repeat (destruct Hmk as [<- | Hmk]); try contradiction;
    eval_binary Hl Hr; rewrite Ht; simpl; rewrite app_nil_r; reflexivity.
Qed.

Lemma binary_constructs_reject_operands_of_two_types_witness :
  evaluates (Add (IntLiteral 1) (StringLiteral "a")) EmptyState []
    (Raise InterpTypeError).
Proof.
  apply (binary_constructs_reject_operands_of_two_types Add
           (or_introl eq_refl)
           (IntLiteral 1) (StringLiteral "a") EmptyState []
           (VInt 1) Integer EmptyState [] (VStr "a") String EmptyState).
  - runs 1%nat.
  - runs 1%nat.
  - discriminate.
Defined.

(** X10.  On two operands of one type, [Add] raises the type fault for Unit
    and Boolean; [Subtract], [Multiply] and [Divide] for Unit, Boolean and
    String; [And] and [Or] for every type but Boolean. *)
Theorem operators_reject_the_other_types :
  forall l r s o1 lv t s1 o2 rv s2,
    evaluates l s o1 (Return (lv, t, s1)) ->
    evaluates r s1 o2 (Return (rv, t, s2)) ->
    (t = Unit \/ t = Boolean ->
     evaluates (Add l r) s (o1 ++ o2) (Raise InterpTypeError)) /\
    (t = Unit \/ t = Boolean \/ t = String ->
     evaluates (Subtract l r) s (o1 ++ o2) (Raise InterpTypeError) /\
     evaluates (Multiply l r) s (o1 ++ o2) (Raise InterpTypeError) /\
     evaluates (Divide l r) s (o1 ++ o2) (Raise InterpTypeError)) /\
    (t <> Boolean ->
     evaluates (And l r) s (o1 ++ o2) (Raise InterpTypeError) /\
     evaluates (Or l r) s (o1 ++ o2) (Raise InterpTypeError)).
Proof.
  intros l r s o1 lv t s1 o2 rv s2 Hl Hr.
  split; [ | split ].
  - intros [-> | ->]; eval_binary Hl Hr.
  - intros [-> | [-> | ->]];
      repeat match goal with |- _ /\ _ => split end; eval_binary Hl Hr.
  - intros Ht.
    split; eval_binary Hl Hr; rewrite type_eqb_refl; simpl;
      destruct t; simpl; rewrite ?app_nil_r; try reflexivity; congruence.
Qed.

Lemma operators_reject_the_other_types_witness :
  evaluates (Add (BooleanLiteral true) (BooleanLiteral false)) EmptyState []
    (Raise InterpTypeError).
Proof.
  refine (proj1 (operators_reject_the_other_types
                   (BooleanLiteral true) (BooleanLiteral false)
                   EmptyState [] (VBool true) Boolean EmptyState []
                   (VBool false) EmptyState _ _) (or_intror eq_refl)).
  - runs 1%nat.
  - runs 1%nat.
Defined.

(** X11.  On two Integer operands [Add], [Subtract] and [Multiply] return
    the sum, the difference and the product, as integers without bound; on
    two FloatingPoint operands the binary64 sum, difference and product;
    on two String operands [Add] returns the concatenation.  The type
    returned is the type of the operands and the state is the one the
    right operand returned. *)
Theorem arithmetic_on_operands_of_one_type :
  forall l r s o1 s1 o2 s2,
    (forall a b,
       evaluates l s o1 (Return (VInt a, Integer, s1)) ->
       evaluates r s1 o2 (Return (VInt b, Integer, s2)) ->
       evaluates (Add l r) s (o1 ++ o2) (Return (VInt (a + b), Integer, s2)) /\
       evaluates (Subtract l r) s (o1 ++ o2)
         (Return (VInt (a - b), Integer, s2)) /\
       evaluates (Multiply l r) s (o1 ++ o2)
         (Return (VInt (a * b), Integer, s2))) /\
    (forall a b,
       evaluates l s o1 (Return (VFloat a, FloatingPoint, s1)) ->
       evaluates r s1 o2 (Return (VFloat b, FloatingPoint, s2)) ->
       evaluates (Add l r) s (o1 ++ o2)
         (Return (VFloat (PrimFloat.add a b), FloatingPoint, s2)) /\
       evaluates (Subtract l r) s (o1 ++ o2)
         (Return (VFloat (PrimFloat.sub a b), FloatingPoint, s2)) /\
       evaluates (Multiply l r) s (o1 ++ o2)
         (Return (VFloat (PrimFloat.mul a b), FloatingPoint, s2))) /\
    (forall a b,
       evaluates l s o1 (Return (VStr a, String, s1)) ->
       evaluates r s1 o2 (Return (VStr b, String, s2)) ->
       evaluates (Add l r) s (o1 ++ o2)
         (Return (VStr (String.append a b), String, s2))).
Proof.
  intros l r s o1 s1 o2 s2. split; [ | split ].
  - intros a b Hl Hr.
    repeat match goal with |- _ /\ _ => split end; eval_binary Hl Hr.
  - intros a b Hl Hr.
    repeat match goal with |- _ /\ _ => split end; eval_binary Hl Hr.
  - intros a b Hl Hr. eval_binary Hl Hr.
Qed.

Lemma arithmetic_on_operands_of_one_type_witness :
  evaluates (Multiply (IntLiteral 6) (IntLiteral 7)) EmptyState []
    (Return (VInt 42, Integer, EmptyState)).
Proof.
  refine (proj2 (proj2 (proj1 (arithmetic_on_operands_of_one_type
                                 (IntLiteral 6) (IntLiteral 7)
                                 EmptyState [] EmptyState [] EmptyState)
                          6 7 _ _))).
  - runs 1%nat.
  - runs 1%nat.
Defined.

(** X12.  On two Integer operands, and on two String operands, the six
    comparisons answer as the order of the values says, and they agree
    with one another: [Lte] is [Lt] or [Eq], [Gt] is the negation of
    [Lte], [Gte] the negation of [Lt], [Ne] the negation of [Eq]. *)
Theorem comparisons_of_Integers_and_of_Strings :
  forall l r s o1 s1 o2 s2,
    (forall a b,
       evaluates l s o1 (Return (VInt a, Integer, s1)) ->
       evaluates r s1 o2 (Return (VInt b, Integer, s2)) ->
       exists less equal : bool,
         less = (a <? b) /\ equal = (a =? b) /\
         evaluates (Lt l r) s (o1 ++ o2) (Return (VBool less, Boolean, s2)) /\
         evaluates (Eq l r) s (o1 ++ o2) (Return (VBool equal, Boolean, s2)) /\
         evaluates (Lte l r) s (o1 ++ o2)
           (Return (VBool (less || equal), Boolean, s2)) /\
         evaluates (Gt l r) s (o1 ++ o2)
           (Return (VBool (negb (less || equal)), Boolean, s2)) /\
         evaluates (Gte l r) s (o1 ++ o2)
           (Return (VBool (negb less), Boolean, s2)) /\
         evaluates (Ne l r) s (o1 ++ o2)
           (Return (VBool (negb equal), Boolean, s2))) /\
    (forall a b,
       evaluates l s o1 (Return (VStr a, String, s1)) ->
       evaluates r s1 o2 (Return (VStr b, String, s2)) ->
       exists less equal : bool,
         less = String.ltb a b /\ equal = String.eqb a b /\
         evaluates (Lt l r) s (o1 ++ o2) (Return (VBool less, Boolean, s2)) /\
         evaluates (Eq l r) s (o1 ++ o2) (Return (VBool equal, Boolean, s2)) /\
         evaluates (Lte l r) s (o1 ++ o2)
           (Return (VBool (less || equal), Boolean, s2)) /\
         evaluates (Gt l r) s (o1 ++ o2)
           (Return (VBool (negb (less || equal)), Boolean, s2)) /\
         evaluates (Gte l r) s (o1 ++ o2)
           (Return (VBool (negb less), Boolean, s2)) /\
         evaluates (Ne l r) s (o1 ++ o2)
           (Return (VBool (negb equal), Boolean, s2))).
Proof.
  intros l r s o1 s1 o2 s2. split.
  - intros a b Hl Hr. exists (a <? b), (a =? b).
    destruct (integer_order a b) as (Hle & Hgt & Hge).
    rewrite <- Hle, <- Hgt, <- Hge.
    repeat match goal with |- _ /\ _ => split end;
      try reflexivity; eval_binary Hl Hr.
  - intros a b Hl Hr. exists (String.ltb a b), (String.eqb a b).
    destruct (string_order a b) as (Hle & Hgt & Hge).
    rewrite <- Hle, <- Hgt, <- Hge.
    repeat match goal with |- _ /\ _ => split end;
      try reflexivity; eval_binary Hl Hr.
Qed.

Lemma comparisons_of_Integers_and_of_Strings_witness :
  evaluates (Lte (IntLiteral 1) (IntLiteral 2)) EmptyState []
    (Return (VBool true, Boolean, EmptyState)).
Proof.
  destruct (proj1 (comparisons_of_Integers_and_of_Strings
                     (IntLiteral 1) (IntLiteral 2)
                     EmptyState [] EmptyState [] EmptyState) 1 2)
    as (less & equal & -> & -> & _ & _ & Hle & _).
  - runs 1%nat.
  - runs 1%nat.
  - exact Hle.
Defined.

(** X13.  What the operators return: [And], [Or], [Not] and the six
    comparisons return type Boolean; [Add] returns Integer, FloatingPoint
    or String; [Subtract], [Multiply] and [Divide] return Integer or
    FloatingPoint. *)
Theorem result_types_of_the_operators :
  forall l r s o v t s',
    (forall mk, In mk truth_constructs ->
       evaluates (mk l r) s o (Return (v, t, s')) -> t = Boolean) /\
    (evaluates (Not l) s o (Return (v, t, s')) -> t = Boolean) /\
    (evaluates (Add l r) s o (Return (v, t, s')) ->
     t = Integer \/ t = FloatingPoint \/ t = String) /\
    (forall mk, In mk [Subtract; Multiply; Divide] ->
       evaluates (mk l r) s o (Return (v, t, s')) ->
       t = Integer \/ t = FloatingPoint).
Proof.
  intros l r s o v t s'.
  repeat match goal with |- _ /\ _ => split end.
  - intros mk Hmk H.
    apply (on_return_evaluates (P := fun x => type_of x = Boolean) _ _ _ _)
      in H; [ exact H | ].
    intros [ | n]; [ simpl in Hmk; repeat (destruct Hmk as [<- | Hmk]);
                     try contradiction; exact I | ].
    simpl in Hmk. repeat (destruct Hmk as [<- | Hmk]); try contradiction;
      simpl; type_tail.
  - intros H.
    apply (on_return_evaluates (P := fun x => type_of x = Boolean) _ _ _ _)
      in H; [ exact H | ].
    intros [ | n]; [ exact I | ]. simpl. type_tail.
  - intros H.
    apply (on_return_evaluates
             (P := fun x => type_of x = Integer \/ type_of x = FloatingPoint \/
                            type_of x = String) _ _ _ _)
      in H; [ exact H | ].
    intros [ | n]; [ exact I | ]. simpl. type_tail.
  - intros mk Hmk H.
    apply (on_return_evaluates
             (P := fun x => type_of x = Integer \/ type_of x = FloatingPoint)
             _ _ _ _)
      in H; [ exact H | ].
    intros [ | n]; [ simpl in Hmk; repeat (destruct Hmk as [<- | Hmk]);
                     try contradiction; exact I | ].
    simpl in Hmk. repeat (destruct Hmk as [<- | Hmk]); try contradiction;
      simpl; type_tail.
Qed.

Lemma result_types_of_the_operators_witness :
  evaluates (Lt (IntLiteral 1) (IntLiteral 2)) EmptyState []
    (Return (VBool true, Boolean, EmptyState)) /\
  Boolean = Boolean.
Proof.
  assert (H : evaluates (Lt (IntLiteral 1) (IntLiteral 2)) EmptyState []
                (Return (VBool true, Boolean, EmptyState))) by (runs 2%nat).
  split; [ exact H | ].
  exact (proj1 (result_types_of_the_operators
                  (IntLiteral 1) (IntLiteral 2) EmptyState []
                  (VBool true) Boolean EmptyState)
           Lt (or_intror (or_intror (or_introl eq_refl))) H).
Defined.

(** X14.  A sequence of two lists, the second not empty, ends as the
    second list does from the state the first list returned; so do the
    program of the two lists and the sequence of the two sequences. *)
Theorem Sequence_of_two_lists :
  forall es1 es2 s o1 v t s1 o2 r,
    evaluates (Sequence es1) s o1 (Return (v, t, s1)) ->
    evaluates (Sequence es2) s1 o2 r ->
    es2 <> [] ->
    evaluates (Sequence (es1 ++ es2)) s (o1 ++ o2) r /\
    evaluates (Program (es1 ++ es2)) s (o1 ++ o2) r /\
    evaluates (Sequence [Sequence es1; Sequence es2]) s (o1 ++ o2) r.
Proof.
  intros es1 es2 s o1 v t s1 o2 r H1 H2 Hne.
  assert (Hr : r <> OutOfFuel) by apply H2.
  apply evaluates_fuel_S in H1 as [n1 H1].
  apply evaluates_fuel_S in H2 as [n2 H2].
  set (k := Nat.max n1 n2).
  specialize (H1 k (Nat.le_max_l _ _)). specialize (H2 k (Nat.le_max_r _ _)).
  clearbody k.
  assert (Happ : for_exprs (evaluate k) (es1 ++ es2) (VNone, Unit, s) =
                 (o1 ++ o2, r)).
  { rewrite evaluate_Sequence in H1, H2.
    rewrite for_exprs_app, H1. simpl.
    rewrite (for_exprs_first _ _ v t VNone Unit s1 Hne), H2. reflexivity. }
  split; [ | split ].
  - apply (evaluates_intro (S k)); [ | exact Hr ].
    rewrite evaluate_Sequence. exact Happ.
  - apply (evaluates_intro (S k)); [ | exact Hr ].
    rewrite evaluate_Program. exact Happ.
  - apply (evaluates_intro (S (S k))); [ | exact Hr ].
    rewrite evaluate_Sequence. remember (evaluate (S k)) as ev.
    simpl. rewrite H1. simpl. rewrite H2.
    destruct r; simpl; rewrite ?app_nil_r; reflexivity.
Qed.

Lemma Sequence_of_two_lists_witness :
  evaluates
    (Sequence ([Assign "x" (IntLiteral 1)] ++
               [Add (Variable_ "x") (IntLiteral 1)]))
    EmptyState [] (Return (VInt 2, Integer, x_is_one)).
Proof.
  apply (Sequence_of_two_lists
           [Assign "x" (IntLiteral 1)] [Add (Variable_ "x") (IntLiteral 1)]
           EmptyState [] (VInt 1) Integer x_is_one []
           (Return (VInt 2, Integer, x_is_one))).
  - runs 3%nat.
  - runs 3%nat.
  - discriminate.
Defined.

(** X15.  After [set_value] the lookup of the name gives the new value and
    type, and the lookup of any other name is unchanged; a second
    [set_value] of the name shadows the first, which stays in the chain. *)
Theorem get_value_after_set_value :
  forall s x v t,
    get_value (set_value s x v t) x = Some (v, t) /\
    (forall y, y <> x ->
       get_value (set_value s x v t) y = get_value s y) /\
    (forall v' t',
       get_value (set_value (set_value s x v t) x v' t') x = Some (v', t') /\
       bindings (set_value (set_value s x v t) x v' t') =
       (x, (v', t')) :: (x, (v, t)) :: bindings s).
Proof.
  intros s x v t. split; [ | split ].
  - simpl. rewrite String.eqb_refl. reflexivity.
  - intros y Hy. simpl.
    destruct (String.eqb_spec x y) as [-> | _]; [ contradiction | reflexivity ].
  - intros v' t'. simpl. rewrite String.eqb_refl. split; reflexivity.
Qed.

Lemma get_value_after_set_value_witness :
  get_value (set_value x_is_one "y" (VBool true) Boolean) "x" =
  get_value x_is_one "x".
Proof.
  apply (proj1 (proj2 (get_value_after_set_value
                         x_is_one "y" (VBool true) Boolean))).
  discriminate.
Defined.

(** X16.  After an assignment that passes its test, reading the variable
    returns the value and the type assigned, in the state the assignment
    returned. *)
Theorem a_variable_reads_what_was_assigned :
  forall x e s o v t s1,
    evaluates e s o (Return (v, t, s1)) ->
    assignable s1 x t ->
    evaluates (Sequence [Assign x e; Variable_ x]) s o
      (Return (v, t, set_value s1 x v t)).
Proof.
  intros x e s o v t s1 H Ha.
  apply evaluates_fuel in H as [n H]. specialize (H n (Nat.le_refl n)).
  apply (evaluates_intro (S (S n))); [ | discriminate ].
  apply assign_test_false in Ha.
  simpl. rewrite H. simpl. rewrite Ha. simpl.
  rewrite String.eqb_refl. simpl. repeat rewrite app_nil_r. reflexivity.
Qed.

Lemma a_variable_reads_what_was_assigned_witness :
  evaluates (Sequence [Assign "x" (IntLiteral 2); Variable_ "x"]) x_is_one []
    (Return (VInt 2, Integer, set_value x_is_one "x" (VInt 2) Integer)).
Proof.
  apply (a_variable_reads_what_was_assigned "x" (IntLiteral 2) x_is_one []).
  - runs 1%nat.
  - right. exists (VInt 1). reflexivity.
Defined.

(** X17.  From a well-typed state, [while(c, body)] ends exactly as
    [if(c, sequence[body, while(c, body)], false)] does: same lines
    written, same result or exception. *)
Theorem While_is_its_unrolling :
  forall c b s o r,
    well_typed s = true ->
    (evaluates (While c b) s o r <-> evaluates (unrolled c b) s o r).
Proof.
  intros c b s o r Hs. split; intros [Hr [n H]].
  - apply (evaluates_intro (S (S n))); [ | exact Hr ].
    rewrite <- H. apply While_fuel_le_unrolled; [ exact Hs | ].
    unfold finished. rewrite H. exact Hr.
  - apply (evaluates_intro (S n)); [ | exact Hr ].
    rewrite <- H. apply unrolled_fuel_le_While; [ exact Hs | ].
    unfold finished. rewrite H. exact Hr.
Qed.

Lemma While_is_its_unrolling_witness :
  evaluates (unrolled (Lt (Variable_ "i") (IntLiteral 5))
               (Assign "i" (Add (Variable_ "i") (IntLiteral 1))))
    (counted 0 EmptyState) []
    (Return (VBool false, Boolean, counted 5 EmptyState)).
Proof.
  apply (proj1 (While_is_its_unrolling
                  (Lt (Variable_ "i") (IntLiteral 5))
                  (Assign "i" (Add (Variable_ "i") (IntLiteral 1)))
                  (counted 0 EmptyState) []
                  (Return (VBool false, Boolean, counted 5 EmptyState))
                  eq_refl)).
  runs 9%nat.
Defined.

(** X18.  An expression with no [Print] node writes nothing, however it
    ends. *)
Theorem only_Print_writes :
  forall e s o r,
    prints e = false -> evaluates e s o r -> o = [].
Proof.
  intros e s o r He [_ [n H]].
  pose proof (evaluate_silent n e s He) as Hs.
  unfold silent in Hs. rewrite H in Hs. exact Hs.
Qed.

Lemma only_Print_writes_witness :
  prints count_to_five = false /\
  evaluates count_to_five EmptyState []
    (Return (VBool false, Boolean, counted 5 EmptyState)) /\
  @nil output = [].
Proof.
  assert (H : evaluates count_to_five EmptyState []
                (Return (VBool false, Boolean, counted 5 EmptyState)))
    by (runs 10%nat).
  split; [ reflexivity | split; [ exact H | ] ].
  exact (only_Print_writes count_to_five EmptyState []
           (Return (VBool false, Boolean, counted 5 EmptyState)) eq_refl H).
Defined.

(** X19.  [copy] on an object of a well-formed store allocates one new
    object with the fields of the original; every object that existed is
    unchanged, and the copy starts the same chain: every lookup from the
    copy answers as from the original. *)
Theorem copy_is_a_new_object_with_the_same_chain :
  forall (h : Store.store) (self : Store.loc),
    Store.well_formed h -> (self < length h)%nat ->
    exists h2 l2,
      Store.copy h self = Some (h2, l2) /\
      l2 = length h /\
      (forall l, (l < length h)%nat -> nth_error h2 l = nth_error h l) /\
      nth_error h2 l2 = nth_error h self /\
      Store.well_formed h2 /\
      Store.chain h2 l2 = Store.chain h self /\
      forall x, Store.get_value h2 l2 x = Store.get_value h self x.
Proof.
  intros h self Hwf Hself.
  destruct (nth_error h self) as [o | ] eqn:Ho;
    [ | apply nth_error_None in Ho; lia ].
  exists (h ++ [o]), (length h).
  destruct (chain_total h self Hwf Hself) as [s Hs].
  assert (Hs2 : Store.chain (h ++ [o]) (length h) = Some s).
  { unfold Store.chain in *. rewrite length_app. simpl.
    rewrite Nat.add_1_r. simpl.
    rewrite nth_error_app2 by lia. rewrite Nat.sub_diag. simpl.
    destruct (length h) as [ | k] eqn:Hlen; [ lia | ].
    simpl in Hs. rewrite Ho in Hs.
    destruct o as [ | name value next]; [ exact Hs | ].
    destruct (Store.chain_loop k h next) as [sn | ] eqn:Hn;
      [ | discriminate ].
    rewrite (chain_loop_extend h [Store.StateObject name value next] k (S k) next sn Hn)
      by lia.
    exact Hs. }
  unfold Store.copy. rewrite Ho.
  repeat match goal with |- _ /\ _ => split end.
  - reflexivity.
  - reflexivity.
  - intros l Hl. apply nth_error_app1. exact Hl.
  - rewrite nth_error_app2 by lia. rewrite Nat.sub_diag. reflexivity.
  - apply (alloc_well_formed h o Hwf).
    intros name value next ->. pose proof (Hwf _ _ _ _ Ho). lia.
  - rewrite Hs2, Hs. reflexivity.
  - intros x. unfold Store.get_value.
    rewrite (get_value_loop_chain _ x _ _ _ Hs2).
    rewrite (get_value_loop_chain _ x _ _ _ Hs). reflexivity.
Qed.

Lemma copy_is_a_new_object_with_the_same_chain_witness :
  exists h2 l2,
    Store.copy store_with_y 1%nat = Some (h2, l2) /\
    Store.get_value h2 l2 "y" = Store.get_value store_with_y 1%nat "y".
Proof.
  destruct (copy_is_a_new_object_with_the_same_chain store_with_y 1%nat)
    as (h2 & l2 & Hcopy & _ & _ & _ & _ & _ & Hget).
  - apply set_value_well_formed;
      [ apply new_EmptyState_well_formed, well_formed_nil
      | apply Nat.lt_0_succ ].
  - apply Nat.lt_succ_diag_r.
  - exists h2, l2. split; [ exact Hcopy | apply Hget ].
Defined.

(** X20.  Evaluation reads a state through lookups only: from two states
    that answer every lookup alike, an expression writes the same lines
    and returns the same value and type, in states that answer every
    lookup alike again, or raises the same exception.  Bindings that are
    shadowed do not matter. *)
Theorem states_with_the_same_lookups_evaluate_alike :
  forall e s s',
    same_lookups s s' ->
    (forall o v t s1,
       evaluates e s o (Return (v, t, s1)) ->
       exists s1',
         evaluates e s' o (Return (v, t, s1')) /\ same_lookups s1 s1') /\
    (forall o ex,
       evaluates e s o (Raise ex) -> evaluates e s' o (Raise ex)).
Proof.
  intros e s s' Hs. split.
  - intros o v t s1 [_ [n H]].
    pose proof (evaluate_alike n e s s' Hs) as Ha.
    unfold alike in Ha. rewrite H in Ha. simpl in Ha.
    destruct (evaluate n e s') as [o' [[[v' t'] s1'] | ex | ]] eqn:H';
      destruct Ha as [Ho Hr]; simpl in *; try contradiction.
    destruct Hr as (<- & <- & Hs1). subst o'.
    exists s1'. split; [ | exact Hs1 ].
    apply (evaluates_intro n); [ exact H' | discriminate ].
  - intros o ex [_ [n H]].
    pose proof (evaluate_alike n e s s' Hs) as Ha.
    unfold alike in Ha. rewrite H in Ha. simpl in Ha.
    destruct (evaluate n e s') as [o' [[[v' t'] s1'] | ex' | ]] eqn:H';
      destruct Ha as [Ho Hr]; simpl in *; try contradiction.
    subst o' ex'.
    apply (evaluates_intro n); [ exact H' | discriminate ].
Qed.

Lemma states_with_the_same_lookups_evaluate_alike_witness :
  exists s1',
    evaluates (Add (Variable_ "x") (IntLiteral 1)) x_is_two []
      (Return (VInt 3, Integer, s1')) /\
    same_lookups x_was_one_is_two s1'.
Proof.
  refine (proj1 (states_with_the_same_lookups_evaluate_alike
                   (Add (Variable_ "x") (IntLiteral 1))
                   x_was_one_is_two x_is_two _)
            [] (VInt 3) Integer x_was_one_is_two _).
  - intros y. unfold x_was_one_is_two, x_is_two. cbn [get_value].
    destruct (String.eqb "x" y); reflexivity.
  - apply (evaluates_intro 2); [ reflexivity | discriminate ].
Defined.


